(** * Conversation-step engine of the voice-agent backend

    A shallow embedding of [app/utils/templating.py], [app/core/router.py],
    [app/domain/models.py], [app/domain/nodes/*.py],
    [app/infra/llm/openai_client.py] and the manual [start]/[step]
    interpreter of [app/core/engine.py].

    Conventions.
    - Python strings are [string], read as sequences of code points below
      256.
    - The [ConversationState] object is mutated in place and handed back by
      every node function; here it is threaded explicitly, and an exception
      carries the contents the object had when it was raised ([outcome]).
    - The [jmespath] package, the LLM client, the chat-completion call,
      [json.loads] and [str()] on values that are not strings are taken as
      parameters (type classes).
    - The LangGraph graph compiled by the constructor, [stream] and
      [astep] are not part of the embedding. *)

From Stdlib Require Import ZArith String Ascii List Lia.
From stdpp Require Import base option gmap strings list fin_maps.
From Equations Require Import Equations.

Local Open Scope string_scope.
Local Open Scope list_scope.

(** ** Python strings *)

Module PyStr.

(** [str.isspace] on one code point below 256. *)
Definition is_space (c : ascii) : bool :=
  let n := nat_of_ascii c in
  ((9 <=? n)%nat && (n <=? 13)%nat) || ((28 <=? n)%nat && (n <=? 32)%nat)
  || (n =? 133)%nat || (n =? 160)%nat.

Definition is_quote (c : ascii) : bool :=
  Ascii.eqb c (ascii_of_nat 34) || Ascii.eqb c "'"%char.

Fixpoint lstrip (p : ascii -> bool) (s : string) : string :=
  match s with
  | EmptyString => EmptyString
  | String c s' => if p c then lstrip p s' else s
  end.

Fixpoint rstrip (p : ascii -> bool) (s : string) : string :=
  match s with
  | EmptyString => EmptyString
  | String c s' =>
      match rstrip p s' with
      | EmptyString => if p c then EmptyString else String c EmptyString
      | r => String c r
      end
  end.

(** [s.strip()] and [s.strip(chars)]. *)
Definition strip_with (p : ascii -> bool) (s : string) : string :=
  rstrip p (lstrip p s).

Definition strip (s : string) : string := strip_with is_space s.

(** ["==" in s]. *)
Fixpoint contains_eqeq (s : string) : bool :=
  match s with
  | EmptyString => false
  | String c s' =>
      match s' with
      | String d _ =>
          (Ascii.eqb c "="%char && Ascii.eqb d "="%char) || contains_eqeq s'
      | EmptyString => false
      end
  end.

(** [s.split("==")]: the pieces between the non-overlapping occurrences
    of the separator, scanned from the left. *)
Fixpoint split_eqeq (s : string) : list string :=
  match s with
  | EmptyString => [EmptyString]
  | String c s' =>
      let keep :=
        match split_eqeq s' with
        | piece :: more => String c piece :: more
        | [] => [String c EmptyString]
        end in
      match s' with
      | String d rest =>
          if Ascii.eqb c "="%char && Ascii.eqb d "="%char
          then EmptyString :: split_eqeq rest
          else keep
      | EmptyString => keep
      end
  end.

End PyStr.

(** ** JSON-like Python values ([Any] in the models) *)

#[warnings="-register-all"]
Inductive value : Type :=
| VNone
| VBool (b : bool)
| VInt (z : Z)
| VFloat (bits : Z)
| VStr (s : string)
| VList (l : list value)
| VDict (d : list (string * value)).

(** Exceptions, by class. *)
Inductive exn : Type :=
| ValueError
| TypeError
| ValidationError
| JMESPathError
| BackendError.

(** A computation that returns or raises without touching shared state. *)
Inductive result (A : Type) : Type :=
| Ok (a : A)
| Err (e : exn).
Arguments Ok {A} a.
Arguments Err {A} e.

Definition bind {A B : Type} (r : result A) (k : A -> result B) : result B :=
  match r with
  | Ok a => k a
  | Err e => Err e
  end.

(** [key in d] and [d[key]] on a mapping with string keys. *)
Fixpoint dict_get (d : list (string * value)) (key : string) : option value :=
  match d with
  | [] => None
  | (k, v) :: d' => if String.eqb k key then Some v else dict_get d' key
  end.

(** ** External libraries and collaborators *)

(** Python's built-in [str()] on values that are not already strings. *)
Class Builtins := { py_repr : value -> string }.

Definition py_str `{Builtins} (v : value) : string :=
  match v with
  | VStr s => s
  | _ => py_repr v
  end.

(** The [jmespath] package: [compile] and [ParsedResult.search]. *)
Class JMESPath := {
  parsed : Type;
  jmespath_compile : string -> result parsed;
  jmespath_search : parsed -> value -> result value
}.

(** [BaseLLMClient.complete(prompt, system, json_mode)], as installed by
    [LLMClient.get_client()]. *)
Class LLMClient := {
  complete : string -> string -> bool -> result value
}.

(** infra/llm/openai_client.py: [OpenAIClient.complete] over the chat
    completion call (the content of the first choice, or an error) and
    [json.loads]. *)
Class ChatBackend := {
  chat_completion : string -> string -> bool -> result (option string);
  json_loads : string -> result value
}.

Definition OpenAIClient `{ChatBackend} : LLMClient :=
  {| complete := fun prompt system json_mode =>
       bind (chat_completion prompt system json_mode) (fun content =>
       match content with
       | Some (String c text) =>
           if json_mode then json_loads (String c text)
           else Ok (VStr (String c text))
       | _ => Err ValueError
       end) |}.

(** ** app/utils/templating.py *)

Definition newline : ascii := ascii_of_nat 10.

(** The tail [(.*?)\}\}] of the pattern, tried at the start of [s]:
    the group and what follows the match. *)
Fixpoint match_close (s : string) : option (string * string) :=
  match s with
  | EmptyString => None
  | String c s' =>
      let consume :=
        if Ascii.eqb c newline then None
        else match match_close s' with
             | Some (body, rest) => Some (String c body, rest)
             | None => None
             end in
      match s' with
      | String d rest =>
          if Ascii.eqb c "}"%char && Ascii.eqb d "}"%char
          then Some (EmptyString, rest)
          else consume
      | EmptyString => consume
      end
  end.

(** The pattern [\{\{(.*?)\}\}] tried at the start of [s]. *)
Definition match_placeholder (s : string) : option (string * string) :=
  match s with
  | String c (String d s'') =>
      if Ascii.eqb c "{"%char && Ascii.eqb d "{"%char
      then match_close s'' else None
  | _ => None
  end.

Lemma match_close_shape s body rest :
  match_close s = Some (body, rest) -> s = body +:+ "}}" +:+ rest.
Proof.
  revert body rest. induction s as [|c s IH]; intros body rest; simpl; [discriminate|].
  assert (Hc : (if Ascii.eqb c newline then None
                else match match_close s with
                     | Some (b, r) => Some (String c b, r)
                     | None => None
                     end) = Some (body, rest) ->
               String c s = body +:+ "}}" +:+ rest).
  { destruct (Ascii.eqb c newline); [discriminate|].
    destruct (match_close s) as [[b r]|] eqn:E; [|discriminate].
    intros [= <- <-]. rewrite (IH b r eq_refl) at 1. reflexivity. }
  destruct s as [|d s']; [exact Hc|].
  destruct (Ascii.eqb c "}") eqn:Ec; [|exact Hc].
  destruct (Ascii.eqb d "}") eqn:Ed; [|exact Hc].
  simpl. intros [= <- <-].
  apply Ascii.eqb_eq in Ec, Ed. subst. reflexivity.
Qed.

Lemma match_placeholder_shape s body rest :
  match_placeholder s = Some (body, rest) ->
  s = "{{" +:+ body +:+ "}}" +:+ rest.
Proof.
  destruct s as [|c [|d s]]; simpl; try discriminate.
  destruct (Ascii.eqb c "{") eqn:Ec; [|discriminate].
  destruct (Ascii.eqb d "{") eqn:Ed; [|discriminate].
  simpl. intros E%match_close_shape.
  apply Ascii.eqb_eq in Ec, Ed. subst c d. rewrite E at 1. reflexivity.
Qed.

Lemma length_append (a b : string) :
  String.length (a +:+ b) = (String.length a + String.length b)%nat.
Proof. induction a as [|c a IH]; simpl; [reflexivity | now rewrite IH]. Qed.

Lemma match_placeholder_length s body rest :
  match_placeholder s = Some (body, rest) ->
  (String.length rest < String.length s)%nat.
Proof.
  intros E%match_placeholder_shape. subst s.
  rewrite !length_append. simpl. lia.
Qed.

Definition inspect {A : Type} (a : A) : {b : A | a = b} := exist _ a eq_refl.

(** What [re.sub] sees in a string: the non-overlapping matches of the
    pattern, leftmost first, with [match.group(0)] and [match.group(1)],
    and the characters in between. *)
Inductive segment : Type :=
| Literal (c : ascii)
| Placeholder (group0 group1 : string).

Equations? segments (s : string) : list segment by wf (String.length s) lt :=
segments EmptyString := [];
segments (String c s') with inspect (match_placeholder (String c s')) := {
  | exist _ (Some (body, rest)) _ :=
      Placeholder ("{{" +:+ body +:+ "}}") body :: segments rest;
  | exist _ None _ := Literal c :: segments s' }.
Proof.
  change (match_placeholder (String c s') = Some (body, rest)) in e.
  apply match_placeholder_length in e. simpl in e |- *. lia.
Qed.

Definition raw (seg : segment) : string :=
  match seg with
  | Literal c => String c EmptyString
  | Placeholder group0 _ => group0
  end.

Definition join (pieces : list string) : string :=
  fold_right String.append EmptyString pieces.

(** [re.sub(r"\{\{(.*?)\}\}", replace, s)] *)
Definition re_sub (replace : string -> string -> string) (s : string) : string :=
  join (map (fun seg =>
               match seg with
               | Literal c => String c EmptyString
               | Placeholder group0 group1 => replace group0 group1
               end) (segments s)).

(** The callback of [render_template]. *)
Definition replace `{Builtins} (variables : gmap string value)
    (group0 group1 : string) : string :=
  let var_name := PyStr.strip group1 in
  match variables !! var_name with
  | None => group0
  | Some v => py_str v
  end.

Definition render_template `{Builtins} (template : string)
    (variables : gmap string value) : string :=
  re_sub (replace variables) template.

(** ** app/domain/models.py *)

Inductive NodeType : Type := Prompt | LLM | If | SetVar | Output.

Definition NodeType_eqb (a b : NodeType) : bool :=
  match a, b with
  | Prompt, Prompt | LLM, LLM | If, If | SetVar, SetVar | Output, Output => true
  | _, _ => false
  end.

Record Node : Type := {
  node_id : string;
  node_type : NodeType;
  config : gmap string value;
  next : option string
}.

Record Edge : Type := {
  edge_id : string;
  source : string;
  target : string;
  condition : option string
}.

Record Workflow : Type := {
  wf_id : string;
  wf_name : string;
  version : Z;
  wf_variables : gmap string value;
  nodes : list Node;
  edges : option (list Edge)
}.

Record Message : Type := {
  role : string;
  content : string;
  name : option string
}.

Record ConversationState : Type := {
  messages : list Message;
  variables : gmap string value;
  last_node : option string;
  done : bool
}.

(** [ConversationState()] *)
Definition empty_state : ConversationState :=
  {| messages := []; variables := ∅; last_node := None; done := false |}.

(** [Message(role=r, content=c)] with a string at hand. *)
Definition mk_message (r c : string) : Message :=
  {| role := r; content := c; name := None |}.

(** [Message(role=r, content=v)] on an arbitrary value: the model
    validates that [content] is a string. *)
Definition new_message (r : string) (v : value) : result Message :=
  match v with
  | VStr c => Ok (mk_message r c)
  | _ => Err ValidationError
  end.

(** In-place updates of the state object. *)
Definition append_message (m : Message) (st : ConversationState) : ConversationState :=
  {| messages := messages st ++ [m]; variables := variables st;
     last_node := last_node st; done := done st |}.

Definition set_variable (k : string) (v : value) (st : ConversationState)
    : ConversationState :=
  {| messages := messages st; variables := <[k := v]> (variables st);
     last_node := last_node st; done := done st |}.

Definition update_variables (m : gmap string value) (st : ConversationState)
    : ConversationState :=
  {| messages := messages st; variables := m ∪ variables st;
     last_node := last_node st; done := done st |}.

Definition set_last_node (n : string) (st : ConversationState) : ConversationState :=
  {| messages := messages st; variables := variables st;
     last_node := Some n; done := done st |}.

Definition set_done (b : bool) (st : ConversationState) : ConversationState :=
  {| messages := messages st; variables := variables st;
     last_node := last_node st; done := b |}.

(** Truth value of an [Optional[str]]: [None] and the empty string are
    false. *)
Definition truthy (o : option string) : bool :=
  match o with
  | Some (String _ _) => true
  | _ => false
  end.

Definition opt_value (o : option string) : value :=
  match o with
  | Some s => VStr s
  | None => VNone
  end.

(** [state.model_dump()] *)
Definition dump_message (m : Message) : value :=
  VDict [("role", VStr (role m)); ("content", VStr (content m));
         ("name", opt_value (name m))].

Definition model_dump (st : ConversationState) : value :=
  VDict [("messages", VList (map dump_message (messages st)));
         ("variables", VDict (map_to_list (variables st)));
         ("last_node", opt_value (last_node st));
         ("done", VBool (done st))].

(** What a call on the shared state object does: it returns the object,
    or raises and leaves the object as it was at that moment. *)
Inductive outcome : Type :=
| Returned (st : ConversationState)
| Raised (e : exn) (st : ConversationState).

Definition and_then (o : outcome) (k : ConversationState -> outcome) : outcome :=
  match o with
  | Returned st => k st
  | Raised e st => Raised e st
  end.

(** A fallible computation made while the state object is [st]. *)
Definition try_with {A : Type} (st : ConversationState) (r : result A)
    (k : A -> outcome) : outcome :=
  match r with
  | Ok a => k a
  | Err e => Raised e st
  end.

Definition executor : Type := ConversationState -> outcome.

Section Engine.
Context `{Builtins} `{JMESPath} `{LLMClient}.

(** ** app/core/router.py *)

Definition router : Type := ConversationState -> result bool.

(** [state.variables.get(var) == value] with [value] a string. *)
Definition check_equality (var value : string) : router :=
  fun state =>
    match variables state !! var with
    | Some (VStr s) => Ok (String.eqb s value)
    | _ => Ok false
    end.

Definition evaluate_expression (expression : parsed) : router :=
  fun state =>
    match jmespath_search expression (model_dump state) with
    | Err e => Err e
    | Ok (VBool b) => Ok b
    | Ok _ => Err ValueError
    end.

Definition create_router (condition : string) : result router :=
  if PyStr.contains_eqeq condition then
    (* var, value = condition.split("==") *)
    match PyStr.split_eqeq condition with
    | [var; value] =>
        Ok (check_equality (PyStr.strip var)
              (PyStr.strip_with PyStr.is_quote (PyStr.strip value)))
    | _ => Err ValueError
    end
  else
    bind (jmespath_compile condition) (fun expression =>
    Ok (evaluate_expression expression)).

(** ** app/domain/nodes *)

(** [render_template(self.config[key], variables)]: [re.sub] raises
    [TypeError] on a template that is not a string. *)
Definition render_config (template : value) (vars : gmap string value)
    : result string :=
  match template with
  | VStr t => Ok (render_template t vars)
  | _ => Err TypeError
  end.

(** [if state.messages and state.messages[-1].role == "user":
       state.variables[key] = state.messages[-1].content] *)
Definition store_user_reply (key : string) (state : ConversationState)
    : ConversationState :=
  match last (messages state) with
  | Some m =>
      if String.eqb (role m) "user"
      then set_variable key (VStr (content m)) state
      else state
  | None => state
  end.

(** prompt.py *)
Definition prompt_fn (node : Node) (text : value) : executor :=
  fun state =>
    let state := store_user_reply "user_input" state in
    try_with state (render_config text (variables state)) (fun rendered =>
    Returned (set_last_node (node_id node)
                (append_message (mk_message "assistant" rendered) state))).

Definition PromptNode (node : Node) : result executor :=
  match config node !! "text" with
  | None => Err ValueError
  | Some text => Ok (prompt_fn node text)
  end.

(** output.py *)
Definition output_fn (node : Node) (text : value) : executor :=
  fun state =>
    let state := store_user_reply "name" state in
    try_with state (render_config text (variables state)) (fun rendered =>
    Returned (set_done true (set_last_node (node_id node)
                (append_message (mk_message "assistant" rendered) state)))).

Definition OutputNode (node : Node) : result executor :=
  match config node !! "text" with
  | None => Err ValueError
  | Some text => Ok (output_fn node text)
  end.

(** llm.py *)

(** [for field in extract: if field in result: extracted[field] = result[field]];
    the keys of the result are strings, so a hashable field that is not a
    string is never found, and an unhashable one raises. *)
Fixpoint extract_fields (extract : list value) (fields : list (string * value))
    (extracted : gmap string value) : result (gmap string value) :=
  match extract with
  | [] => Ok extracted
  | VStr field :: more =>
      match dict_get fields field with
      | Some v => extract_fields more fields (<[field := v]> extracted)
      | None => extract_fields more fields extracted
      end
  | VList _ :: _ | VDict _ :: _ => Err TypeError
  | _ :: more => extract_fields more fields extracted
  end.

Definition system_instruction : string :=
  "Extract information from the user's message.".

Definition last_user_message (msgs : list Message) : option Message :=
  find (fun msg => String.eqb (role msg) "user") (rev msgs).

Definition llm_fn (node : Node) (prompt : value) (extract : list value) : executor :=
  fun state =>
    match last_user_message (messages state) with
    | None => Raised ValueError state
    | Some user_message =>
        try_with state
          (render_config prompt
             (<["user_input" := VStr (content user_message)]> (variables state)))
          (fun rendered =>
        try_with state (complete rendered system_instruction true) (fun res =>
        match res with
        | VDict fields =>
            try_with state (extract_fields extract fields ∅) (fun extracted =>
            let state := update_variables extracted state in
            let reply :=
              match extracted !! "response" with
              | Some v => v
              | None => VStr (py_str res)
              end in
            try_with state (new_message "assistant" reply) (fun msg =>
            Returned (set_last_node (node_id node) (append_message msg state))))
        | _ => Returned (set_last_node (node_id node) state)
        end))
    end.

Definition LLMNode (node : Node) : result executor :=
  match config node !! "prompt", config node !! "extract" with
  | Some prompt, Some (VList extract) => Ok (llm_fn node prompt extract)
  | _, _ => Err ValueError
  end.

(** if_node.py *)
Definition if_fn (node : Node) (route : router) (true_target false_target : value)
    : executor :=
  fun state =>
    try_with state (route state) (fun res =>
    let next_node := if res then true_target else false_target in
    Returned (set_variable "_next" next_node (set_last_node (node_id node) state))).

(** [create_router] is applied when the graph function is built; a
    condition that is not a string makes it raise ([TypeError] or
    [AttributeError], recorded here as [TypeError]). *)
Definition IfNode (node : Node) : result executor :=
  match config node !! "condition", config node !! "true_target",
        config node !! "false_target" with
  | Some cond, Some true_target, Some false_target =>
      match cond with
      | VStr c =>
          bind (create_router c) (fun route =>
          Ok (if_fn node route true_target false_target))
      | _ => Err TypeError
      end
  | _, _, _ => Err ValueError
  end.

(** setvar.py *)
Inductive setvar_expr : Type :=
| Compiled (e : parsed)
| Static (v : value).

Fixpoint compile_expressions (entries : list (string * value))
    : result (list (string * setvar_expr)) :=
  match entries with
  | [] => Ok []
  | (var_name, VStr expr) :: more =>
      bind (jmespath_compile expr) (fun e =>
      bind (compile_expressions more) (fun rest =>
      Ok ((var_name, Compiled e) :: rest)))
  | (var_name, v) :: more =>
      bind (compile_expressions more) (fun rest =>
      Ok ((var_name, Static v) :: rest))
  end.

Fixpoint assign_expressions (state_dict : value)
    (expressions : list (string * setvar_expr)) (state : ConversationState)
    : outcome :=
  match expressions with
  | [] => Returned state
  | (var_name, Compiled e) :: more =>
      try_with state (jmespath_search e state_dict) (fun v =>
      assign_expressions state_dict more (set_variable var_name v state))
  | (var_name, Static v) :: more =>
      assign_expressions state_dict more (set_variable var_name v state)
  end.

Definition setvar_fn (node : Node) (expressions : list (string * setvar_expr))
    : executor :=
  fun state =>
    let state_dict := model_dump state in
    and_then (assign_expressions state_dict expressions state) (fun state =>
    Returned (set_last_node (node_id node) state)).

Definition SetVarNode (node : Node) : result executor :=
  match config node !! "variables" with
  | Some (VDict entries) =>
      bind (compile_expressions entries) (fun expressions =>
      Ok (setvar_fn node expressions))
  | _ => Err ValueError
  end.

(** [NodeRegistry.create(node).to_graph_fn()]: every member of the
    [NodeType] enumeration is registered. *)
Definition to_graph_fn (node : Node) : result executor :=
  match node_type node with
  | Prompt => PromptNode node
  | LLM => LLMNode node
  | If => IfNode node
  | SetVar => SetVarNode node
  | Output => OutputNode node
  end.

End Engine.

(** ** app/core/engine.py: the manual [start]/[step] interpreter *)

Section WorkflowEngine.
Context `{Builtins} `{JMESPath} `{LLMClient}.
Variable workflow : Workflow.

(** [self.workflow.edges], empty when it is [None]. *)
Definition workflow_edges : list Edge :=
  match edges workflow with
  | Some es => es
  | None => []
  end.

Definition _find_node_by_id (id : string) : option Node :=
  find (fun node => String.eqb (node_id node) id) (nodes workflow).

Definition _find_next_node_from_edges (current_node_id : string) : option Node :=
  match find (fun edge => String.eqb (source edge) current_node_id) workflow_edges with
  | Some edge => _find_node_by_id (target edge)
  | None => None
  end.

Definition _find_next_node_from_next_prop (current_node_id : string) : option Node :=
  match _find_node_by_id current_node_id with
  | Some current_node =>
      if truthy (next current_node)
      then match next current_node with
           | Some n => _find_node_by_id n
           | None => None
           end
      else None
  | None => None
  end.

Definition _has_next_node (node : Node) : bool :=
  match workflow_edges with
  | _ :: _ =>
      existsb (fun edge => String.eqb (source edge) (node_id node)) workflow_edges
  | [] => truthy (next node)
  end.

(** The lookup written out at every use in [step]: edges first, then the
    [next] property. *)
Definition find_successor (current_node_id : string) : option Node :=
  match _find_next_node_from_edges current_node_id with
  | Some n => Some n
  | None => _find_next_node_from_next_prop current_node_id
  end.

(** [result.last_node = node.id; result.done = not self._has_next_node(node)] *)
Definition update_state (node : Node) (st : ConversationState) : ConversationState :=
  set_done (negb (_has_next_node node)) (set_last_node (node_id node) st).

(** Build the graph function of [node], run it on [st] and update the
    result. *)
Definition run_node (node : Node) (st : ConversationState) : outcome :=
  try_with st (to_graph_fn node) (fun fn =>
  and_then (fn st) (fun result =>
  Returned (update_state node result))).

(** The tail shared by both chains: run the successor of [node] when it is
    an Output node. *)
Definition chain_output (node : Node) (result : ConversationState) : outcome :=
  match find_successor (node_id node) with
  | Some next_node =>
      if NodeType_eqb (node_type next_node) Output
      then run_node next_node result
      else Returned result
  | None => Returned result
  end.

(** The node [step] picks: the first node when [state.last_node] is
    unset, the successor of [state.last_node] otherwise. *)
Definition find_next_node (first_node : Node) (state : ConversationState)
    : option Node :=
  if truthy (last_node state) then
    match last_node state with
    | Some id => find_successor id
    | None => None
    end
  else Some first_node.

Definition step (state : ConversationState) (user_text : string) : outcome :=
  match nodes workflow with
  | [] => Returned state
  | first_node :: _ =>
      match find_next_node first_node state with
      | None => Returned (set_done true state)
      | Some next_node =>
          try_with state (to_graph_fn next_node) (fun fn =>
          let state := append_message (mk_message "user" user_text) state in
          and_then (fn state) (fun result =>
          let result := update_state next_node result in
          match node_type next_node with
          | Prompt =>
              match find_successor (node_id next_node) with
              | Some next_next_node =>
                  if NodeType_eqb (node_type next_next_node) LLM then
                    and_then (run_node next_next_node result) (fun result =>
                    if done result then Returned result
                    else chain_output next_next_node result)
                  else Returned result
              | None => Returned result
              end
          | LLM =>
              if done result then Returned result
              else chain_output next_node result
          | _ => Returned result
          end))
      end
  end.

(** The lookup written out in [start]: it reads the edge list and the
    [next] field of the node at hand. *)
Definition start_successor (node : Node) : option Node :=
  match _find_next_node_from_edges (node_id node) with
  | Some n => Some n
  | None =>
      if truthy (next node)
      then match next node with
           | Some n => _find_node_by_id n
           | None => None
           end
      else None
  end.

Definition start (input_text : option string) : outcome :=
  match nodes workflow with
  | [] => Returned empty_state
  | first_node :: _ =>
      let initial_messages :=
        match input_text with
        | Some text => if truthy input_text then [mk_message "user" text] else []
        | None => []
        end in
      let conv_state :=
        {| messages := initial_messages; variables := wf_variables workflow;
           last_node := None; done := false |} in
      try_with conv_state (to_graph_fn first_node) (fun fn =>
      and_then (fn conv_state) (fun result =>
      let result := set_done false (set_last_node (node_id first_node) result) in
      match input_text with
      | Some text =>
          if truthy input_text && negb (done result) then
            match start_successor first_node with
            | Some next_node =>
                if NodeType_eqb (node_type next_node) LLM then
                  let result := append_message (mk_message "user" text) result in
                  and_then (run_node next_node result) (fun result =>
                  if done result then Returned result
                  else
                    match start_successor next_node with
                    | Some next_next_node =>
                        if NodeType_eqb (node_type next_next_node) Output
                        then run_node next_next_node result
                        else Returned result
                    | None => Returned result
                    end)
                else Returned result
            | None => Returned result
            end
          else Returned result
      | None => Returned result
      end))
  end.

End WorkflowEngine.

(** ** Stand-ins for the collaborators, used to run the engine on
    concrete workflows *)

Definition demo_builtins : Builtins := {| py_repr := fun _ => "<object>" |}.

(** A JMESPath interpreter for bare identifiers: the field of that name,
    or [null]. *)
Definition demo_jmespath : JMESPath :=
  {| parsed := string;
     jmespath_compile := fun expr => Ok expr;
     jmespath_search := fun expr data =>
       match data with
       | VDict d => Ok (match dict_get d expr with Some v => v | None => VNone end)
       | _ => Ok VNone
       end |}.

(** A client that answers with a JSON object. *)
Definition object_client : LLMClient :=
  {| complete := fun _ _ _ =>
       Ok (VDict [("response", VStr "Nice to meet you"); ("name", VStr "Alice")]) |}.

(** A client that answers with plain text. *)
Definition text_client : LLMClient :=
  {| complete := fun _ _ _ => Ok (VStr "hello") |}.


Definition text_config (t : string) : gmap string value := {[ "text" := VStr t ]}.

(** The workflow of tests/integration/test_workflow.py. *)
Definition greeting_workflow : Workflow :=
  {| wf_id := "test-greeting"; wf_name := "Test Greeting"; version := 1;
     wf_variables := ∅;
     nodes := [ {| node_id := "ask_name"; node_type := Prompt;
                   config := text_config "Hi! What's your name?";
                   next := Some "reply" |};
                {| node_id := "reply"; node_type := Output;
                   config := text_config "Thanks, {{name}}!";
                   next := None |} ];
     edges := None |}.

(** A workflow whose only node is an Output node. *)
Definition farewell_workflow : Workflow :=
  {| wf_id := "farewell"; wf_name := "Farewell"; version := 1;
     wf_variables := ∅;
     nodes := [ {| node_id := "bye"; node_type := Output;
                   config := text_config "Goodbye!"; next := None |} ];
     edges := None |}.

(** A workflow whose only node is a prompt. *)
Definition survey_workflow : Workflow :=
  {| wf_id := "survey"; wf_name := "Survey"; version := 1;
     wf_variables := ∅;
     nodes := [ {| node_id := "ask"; node_type := Prompt;
                   config := text_config "How was your day?"; next := None |} ];
     edges := None |}.

(** The greeting workflow with the Output node pointing back to the
    question. *)
Definition looping_workflow : Workflow :=
  {| wf_id := "loop"; wf_name := "Looping greeting"; version := 1;
     wf_variables := ∅;
     nodes := [ {| node_id := "ask_name"; node_type := Prompt;
                   config := text_config "Hi! What's your name?";
                   next := Some "reply" |};
                {| node_id := "reply"; node_type := Output;
                   config := text_config "Thanks, {{name}}!";
                   next := Some "ask_name" |} ];
     edges := None |}.

(** Two prompts: the first reaches the second by an edge, the second goes
    back to the first by its [next] property. *)
Definition mixed_workflow : Workflow :=
  {| wf_id := "mixed"; wf_name := "Edges and next"; version := 1;
     wf_variables := ∅;
     nodes := [ {| node_id := "ask"; node_type := Prompt;
                   config := text_config "What do you need?"; next := None |};
                {| node_id := "confirm"; node_type := Prompt;
                   config := text_config "Anything else?";
                   next := Some "ask" |} ];
     edges := Some [ {| edge_id := "e1"; source := "ask"; target := "confirm";
                        condition := None |} ] |}.

(** A workflow that starts with a branch on an expression that is not a
    boolean. *)
Definition branching_workflow : Workflow :=
  {| wf_id := "branch"; wf_name := "Branch"; version := 1;
     wf_variables := ∅;
     nodes := [ {| node_id := "check"; node_type := If;
                   config := {[ "condition" := VStr "last_node";
                                "true_target" := VStr "yes";
                                "false_target" := VStr "no" ]};
                   next := None |} ];
     edges := None |}.

(** An LLM node that extracts [name]. *)
Definition extract_node : Node :=
  {| node_id := "extract"; node_type := LLM;
     config := {[ "prompt" := VStr "User said: {{user_input}}";
                  "extract" := VList [VStr "name"] ]};
     next := None |}.

Definition user_said (text : string) : ConversationState :=
  {| messages := [mk_message "user" text]; variables := ∅;
     last_node := None; done := false |}.

(** ** app/domain/nodes/base.py and nodes/__init__.py: the registry *)

Definition NodeType_value (t : NodeType) : string :=
  match t with
  | Prompt => "Prompt"
  | LLM => "LLM"
  | If => "If"
  | SetVar => "SetVar"
  | Output => "Output"
  end.

Module NodeRegistry.
Section Registry.
Context `{Builtins} `{JMESPath} `{LLMClient}.

(** A registered class, taken with its [to_graph_fn]: from a node to the
    graph function, or the error of its construction. *)
Definition node_class : Type := Node -> result executor.

(** [cls._registry[node_type] = node_class] *)
Definition register (node_type : string) (cls : node_class)
    (registry : gmap string node_class) : gmap string node_class :=
  <[node_type := cls]> registry.

(** [NodeRegistry.create(node)] followed by [to_graph_fn()]. *)
Definition create (registry : gmap string node_class) (node : Node)
    : result executor :=
  match registry !! NodeType_value (node_type node) with
  | None => Err ValueError
  | Some cls => cls node
  end.

(** The registry after nodes/__init__.py has run. *)
Definition registered : gmap string node_class :=
  register (NodeType_value Output) OutputNode
    (register (NodeType_value SetVar) SetVarNode
       (register (NodeType_value If) IfNode
          (register (NodeType_value LLM) LLMNode
             (register (NodeType_value Prompt) PromptNode ∅)))).

End Registry.
End NodeRegistry.

(** ** app/core/engine.py: conversion to and from LangChain messages *)

(** The three LangChain message classes the engine builds, with string
    content.  Their other fields (id, name, additional_kwargs,
    response_metadata) are not modelled: the conversions below never read
    them, and the messages the engine builds itself carry none.  Other
    message classes, for which the source raises [ValueError], and content
    that is not a string, which the source passes through [str], are outside
    this type. *)
Inductive lc_message : Type :=
| AIMessage (content : string)
| HumanMessage (content : string)
| SystemMessage (content : string).

Definition _convert_to_langchain_message (msg : Message) : result lc_message :=
  if String.eqb (role msg) "assistant" then Ok (AIMessage (content msg))
  else if String.eqb (role msg) "user" then Ok (HumanMessage (content msg))
  else if String.eqb (role msg) "system" then Ok (SystemMessage (content msg))
  else Err ValueError.

Definition _convert_from_langchain_message (msg : lc_message) : Message :=
  match msg with
  | AIMessage c => mk_message "assistant" c
  | HumanMessage c => mk_message "user" c
  | SystemMessage c => mk_message "system" c
  end.

(** The graph state ([State], a TypedDict) as the engine builds it, with
    all four keys present; the defaults the source takes for missing keys
    are not modelled. *)
Record State : Type := {
  state_messages : list lc_message;
  state_variables : gmap string value;
  state_last_node : option string;
  state_done : bool
}.

Definition _state_to_conversation (state : State) : ConversationState :=
  {| messages := map _convert_from_langchain_message (state_messages state);
     variables := state_variables state;
     last_node := state_last_node state;
     done := state_done state |}.

(** A list comprehension over a conversion that can raise. *)
Fixpoint convert_all (msgs : list Message) : result (list lc_message) :=
  match msgs with
  | [] => Ok []
  | msg :: more =>
      bind (_convert_to_langchain_message msg) (fun m =>
      bind (convert_all more) (fun ms => Ok (m :: ms)))
  end.

Definition _conversation_to_state (conv_state : ConversationState) : result State :=
  bind (convert_all (messages conv_state)) (fun ms =>
  Ok {| state_messages := ms;
        state_variables := variables conv_state;
        state_last_node := last_node conv_state;
        state_done := done conv_state |}).

(** ** app/services/run_service.py: the state handed to [step] and the
    step record made from its result *)

Record RunStep : Type := {
  step_id : Z;
  step_run_id : Z;
  step_node_id : string;
  input_messages : list Message;
  output_messages : list Message;
  variables_snapshot : gmap string value;
  latency_ms : option Z;
  created_at : Z
}.

(** [l[-n:]] *)
Definition last_n {A : Type} (n : nat) (l : list A) : list A :=
  skipn (length l - n) l.

(** The state [step_run] builds from the run's variables and its steps. *)
Definition step_run_state (run_variables : gmap string value)
    (steps : list RunStep) : ConversationState :=
  {| messages :=
       flat_map (fun step => input_messages step ++ output_messages step) steps;
     variables := run_variables;
     last_node := match last steps with
                  | Some step => Some (step_node_id step)
                  | None => None
                  end;
     done := false |}.

(** The [RunStep] that [step_run] saves for the state [step] returned;
    the identifiers, the latency and the time come from outside. *)
Definition step_run_record (id run_id latency now : Z) (state : ConversationState)
    : RunStep :=
  {| step_id := id;
     step_run_id := run_id;
     step_node_id := if truthy (last_node state)
                     then match last_node state with
                          | Some n => n
                          | None => "unknown"
                          end
                     else "unknown";
     input_messages := if (1 <? length (messages state))%nat
                       then last_n 2 (messages state)
                       else messages state;
     output_messages := match messages state with
                        | [] => []
                        | _ :: _ => last_n 1 (messages state)
                        end;
     variables_snapshot := variables state;
     latency_ms := Some latency;
     created_at := now |}.

(** * Properties *)

(** ** Templating *)

Lemma append_cons (x : ascii) (a b : string) :
  String x a +:+ b = String x (a +:+ b).
Proof. reflexivity. Qed.

Lemma append_nil (b : string) : EmptyString +:+ b = b.
Proof. reflexivity. Qed.

Lemma append_assoc (a b c : string) : (a +:+ b) +:+ c = a +:+ (b +:+ c).
Proof.
  induction a as [|x a IH]; [reflexivity|].
  now rewrite !append_cons, IH.
Qed.

Lemma segments_raw (s : string) : join (map raw (segments s)) = s.
Proof.
  funelim (segments s).
  - reflexivity.
  - simpl. rewrite H.
    rewrite (match_placeholder_shape (String c s') body rest e).
    simpl. now rewrite !append_assoc.
  - simpl. now rewrite H.
Qed.

Lemma re_sub_verbatim (f : string -> string -> string) (s : string) :
  (forall group0 group1, In (Placeholder group0 group1) (segments s) ->
                         f group0 group1 = group0) ->
  re_sub f s = s.
Proof.
  intros Hf. unfold re_sub. rewrite <- (segments_raw s) at 2.
  f_equal. apply map_ext_in. intros [c|g0 g1] Hin; simpl; [reflexivity|].
  now apply Hf.
Qed.

(** The output is the template with each placeholder segment handed to
    the callback, and everything else copied. *)
Definition render_segment `{Builtins} (variables : gmap string value)
    (seg : segment) : string :=
  match seg with
  | Literal c => String c EmptyString
  | Placeholder group0 group1 => replace variables group0 group1
  end.

(** C9. For every template and variable map, [render_template] is a total
    function whose output is the concatenation of the rendered segments of
    the template; a placeholder whose stripped name is not a key of the map
    is rendered as its own text; the segments' own texts concatenate to the
    template; hence a template none of whose placeholders is a key, and in
    particular any template under the empty map, is returned unchanged. *)
Theorem render_template_unknown_verbatim `{Builtins} :
  forall (t : string) (v : gmap string value),
    render_template t v = join (map (render_segment v) (segments t))
    /\ (forall group0 group1,
          v !! PyStr.strip group1 = None ->
          render_segment v (Placeholder group0 group1)
          = raw (Placeholder group0 group1))
    /\ join (map raw (segments t)) = t
    /\ ((forall group0 group1, In (Placeholder group0 group1) (segments t) ->
           v !! PyStr.strip group1 = None) ->
        render_template t v = t)
    /\ render_template t ∅ = t.
Proof.
  intros t v. repeat split.
  - intros g0 g1 Hnone. simpl. unfold replace. now rewrite Hnone.
  - apply segments_raw.
  - intros Hunknown. apply re_sub_verbatim. intros g0 g1 Hin.
    unfold replace. now rewrite (Hunknown g0 g1 Hin).
  - apply re_sub_verbatim. intros g0 g1 _. unfold replace.
    now rewrite lookup_empty.
Qed.

Lemma render_template_unknown_verbatim_witness :
  (forall group0 group1,
      In (Placeholder group0 group1)
         (segments "Thanks, {{name}} and {{ other }}!") ->
      ({[ "city" := VStr "Paris" ]} : gmap string value) !! PyStr.strip group1 = None)
  /\ @render_template demo_builtins "Thanks, {{name}} and {{ other }}!"
       {[ "city" := VStr "Paris" ]}
     = "Thanks, {{name}} and {{ other }}!".
Proof.
  assert (Hpre : forall group0 group1,
      In (Placeholder group0 group1)
         (segments "Thanks, {{name}} and {{ other }}!") ->
      ({[ "city" := VStr "Paris" ]} : gmap string value) !! PyStr.strip group1 = None).
  { intros g0 g1 Hin. vm_compute in Hin.
    repeat (destruct Hin as [Hin|Hin]; [inversion Hin; subst; try reflexivity|]).
    destruct Hin. }
  split; [exact Hpre|].
  apply (proj1 (proj2 (proj2 (proj2
    (render_template_unknown_verbatim (H := demo_builtins)
       "Thanks, {{name}} and {{ other }}!" {[ "city" := VStr "Paris" ]}))))).
  exact Hpre.
Defined.

(** ** Condition evaluator *)

Lemma split_eqeq_cons (s : string) :
  exists piece more, PyStr.split_eqeq s = piece :: more.
Proof.
  destruct s as [|c s]; [now exists EmptyString, []|].
  cbn [PyStr.split_eqeq].
  destruct (PyStr.split_eqeq s) as [|p m] eqn:E; destruct s as [|d rest];
    try destruct (Ascii.eqb c "=" && Ascii.eqb d "="); eauto.
Qed.

Lemma split_eqeq_step (c : ascii) (s : string) :
  PyStr.split_eqeq (String c s)
  = match s with
    | String d rest =>
        if Ascii.eqb c "=" && Ascii.eqb d "="
        then EmptyString :: PyStr.split_eqeq rest
        else match PyStr.split_eqeq s with
             | piece :: more => String c piece :: more
             | [] => [String c EmptyString]
             end
    | EmptyString => [String c EmptyString]
    end.
Proof. destruct s; reflexivity. Qed.

Lemma contains_eqeq_step (c : ascii) (s : string) :
  PyStr.contains_eqeq (String c s)
  = match s with
    | String d _ => (Ascii.eqb c "=" && Ascii.eqb d "=") || PyStr.contains_eqeq s
    | EmptyString => false
    end.
Proof. reflexivity. Qed.

(** ["==" in s] holds exactly when [s.split("==")] has more than one piece. *)
Lemma contains_eqeq_split (s : string) :
  PyStr.contains_eqeq s = negb (length (PyStr.split_eqeq s) =? 1)%nat.
Proof.
  induction s as [|c s IH]; [reflexivity|].
  rewrite split_eqeq_step, contains_eqeq_step.
  destruct s as [|d rest]; [reflexivity|].
  destruct (Ascii.eqb c "=" && Ascii.eqb d "=") eqn:E.
  - destruct (split_eqeq_cons rest) as (p & m & ->). reflexivity.
  - rewrite IH.
    destruct (split_eqeq_cons (String d rest)) as (p & m & ->). reflexivity.
Qed.

Section RouterFacts.
Context `{JMESPath}.

(** With exactly one separator the router compares the stored value with
    the trimmed literal. *)
Lemma create_router_equality (cond var literal : string) :
  PyStr.split_eqeq cond = [var; literal] ->
  create_router cond
  = Ok (check_equality (PyStr.strip var)
          (PyStr.strip_with PyStr.is_quote (PyStr.strip literal))).
Proof.
  intros E. unfold create_router.
  rewrite contains_eqeq_split, E.
  reflexivity.
Qed.

Lemma check_equality_true (var literal : string) (st : ConversationState) :
  check_equality var literal st = Ok true <-> variables st !! var = Some (VStr literal).
Proof.
  unfold check_equality.
  destruct (variables st !! var) as [[]|] eqn:E; split; intros Hx;
    try discriminate.
  - injection Hx as Hx. apply String.eqb_eq in Hx. now subst.
  - injection Hx as ->. now rewrite String.eqb_refl.
Qed.

(** C8. For a condition without [==] that compiles, the predicate returned
    by [create_router] searches the compiled expression in
    [state.model_dump()]; it returns the result when that is a boolean,
    raises [ValueError] (the condition-type error) when it is any other
    value, and lets an error of the search through. *)
Theorem create_router_expression (cond : string) (expression : parsed) :
  PyStr.contains_eqeq cond = false ->
  jmespath_compile cond = Ok expression ->
  exists route : router,
    create_router cond = Ok route /\
    forall st : ConversationState,
      (forall b, jmespath_search expression (model_dump st) = Ok (VBool b) ->
                 route st = Ok b) /\
      (forall v, jmespath_search expression (model_dump st) = Ok v ->
                 (forall b, v <> VBool b) -> route st = Err ValueError) /\
      (forall e, jmespath_search expression (model_dump st) = Err e ->
                 route st = Err e).
Proof.
  intros Hno Hc. exists (evaluate_expression expression). split.
  - unfold create_router. rewrite Hno, Hc. reflexivity.
  - intros st. unfold evaluate_expression. repeat split.
    + intros b ->. reflexivity.
    + intros v -> Hv. destruct v; try reflexivity. now destruct (Hv b).
    + intros e ->. reflexivity.
Qed.

End RouterFacts.

Lemma create_router_expression_witness :
  PyStr.contains_eqeq "last_node" = false /\
  @jmespath_compile demo_jmespath "last_node" = Ok "last_node" /\
  exists route : @router,
    @create_router demo_jmespath "last_node" = Ok route /\
    route empty_state = Err ValueError.
Proof.
  split; [reflexivity|]. split; [reflexivity|].
  destruct (@create_router_expression demo_jmespath "last_node" "last_node"
              eq_refl eq_refl) as (route & Hroute & Hspec).
  exists route. split; [exact Hroute|].
  destruct (Hspec empty_state) as (_ & Hother & _).
  apply (Hother VNone); [reflexivity | discriminate].
Defined.

Example router_string_match :
  bind (@create_router demo_jmespath "x == 'a'") (fun route =>
    route {| messages := []; variables := {[ "x" := VStr "a" ]};
             last_node := None; done := false |}) = Ok true.
Proof. vm_compute. reflexivity. Qed.

Example router_string_mismatch :
  bind (@create_router demo_jmespath "x == 'a'") (fun route =>
    route {| messages := []; variables := {[ "x" := VStr "b" ]};
             last_node := None; done := false |}) = Ok false.
Proof. vm_compute. reflexivity. Qed.

Example router_no_numeric_coercion :
  bind (@create_router demo_jmespath "age == '5'") (fun route =>
    route {| messages := []; variables := {[ "age" := VInt 5 ]};
             last_node := None; done := false |}) = Ok false.
Proof. vm_compute. reflexivity. Qed.

(** C5. On the condition [x == 'a==b'], whose literal holds the separator,
    [condition.split("==")] has three pieces and [create_router] raises
    [ValueError] instead of returning a predicate. *)
Theorem create_router_two_separators :
  PyStr.contains_eqeq "x == 'a==b'" = true /\
  PyStr.split_eqeq "x == 'a==b'" = ["x "; " 'a"; "b'"] /\
  @create_router demo_jmespath "x == 'a==b'" = Err ValueError.
Proof. repeat split. Qed.

(** ** The repository's integration test *)

Example greeting_start :
  @start demo_builtins demo_jmespath object_client greeting_workflow None
  = Returned {| messages := [mk_message "assistant" "Hi! What's your name?"];
                variables := ∅; last_node := Some "ask_name"; done := false |}.
Proof. vm_compute. reflexivity. Qed.

Example greeting_step :
  @step demo_builtins demo_jmespath object_client greeting_workflow
    {| messages := [mk_message "assistant" "Hi! What's your name?"];
       variables := ∅; last_node := Some "ask_name"; done := false |} "Alice"
  = Returned {| messages := [mk_message "assistant" "Hi! What's your name?";
                             mk_message "user" "Alice";
                             mk_message "assistant" "Thanks, Alice!"];
                variables := {[ "name" := VStr "Alice" ]};
                last_node := Some "reply"; done := true |}.
Proof. vm_compute. reflexivity. Qed.


(** ** Step driver: completion *)

Section DriverFacts.
Context `{Builtins} `{JMESPath} `{LLMClient}.
Variable workflow : Workflow.

(** No successor: [step] only sets [done]. *)
Lemma step_no_successor (st : ConversationState) (txt : string)
    (first : Node) (rest : list Node) :
  nodes workflow = first :: rest ->
  find_next_node workflow first st = None ->
  step workflow st txt = Returned (set_done true st).
Proof. intros Hn Hnone. unfold step. now rewrite Hn, Hnone. Qed.

(** The Output executor, called directly, always marks the state done. *)
Lemma output_fn_done (node : Node) (text : value) (st st' : ConversationState) :
  output_fn node text st = Returned st' -> done st' = true.
Proof.
  unfold output_fn, try_with.
  destruct (render_config text _); [|discriminate].
  now intros [= <-].
Qed.

(** Without input text [start] runs the first node only and reports the
    run as not done. *)
Lemma start_no_input (first : Node) (rest : list Node) :
  nodes workflow = first :: rest ->
  start workflow None
  = try_with {| messages := []; variables := wf_variables workflow;
                last_node := None; done := false |}
      (to_graph_fn first) (fun fn =>
    and_then (fn {| messages := []; variables := wf_variables workflow;
                    last_node := None; done := false |}) (fun result =>
    Returned (set_done false (set_last_node (node_id first) result)))).
Proof. intros Hn. unfold start. now rewrite Hn. Qed.

Lemma start_no_input_not_done (st : ConversationState) :
  nodes workflow <> [] ->
  start workflow None = Returned st -> done st = false.
Proof.
  intros Hne. destruct (nodes workflow) as [|first rest] eqn:Hn; [done|].
  rewrite (start_no_input first rest Hn). unfold try_with, and_then.
  destruct (to_graph_fn first) as [fn|]; [|discriminate].
  destruct (fn _); [|discriminate]. now intros [= <-].
Qed.

End DriverFacts.

Section StartFacts.
Context `{Builtins} `{JMESPath} `{LLMClient}.
Variable workflow : Workflow.

(** C1 (as the code has it). For a workflow whose first node is not an
    Output node, [start()] without input builds the first node, runs its
    function on the initial state and nothing else; when that returns, the
    state handed back has [last_node] set to the first node's id and
    [done = false], whether or not the first node has a successor. *)
Theorem start_no_input_first_node_only (first : Node) (rest : list Node) :
  nodes workflow = first :: rest ->
  node_type first <> Output ->
  start workflow None
  = try_with {| messages := []; variables := wf_variables workflow;
                last_node := None; done := false |}
      (to_graph_fn first) (fun fn =>
    and_then (fn {| messages := []; variables := wf_variables workflow;
                    last_node := None; done := false |}) (fun result =>
    Returned (set_done false (set_last_node (node_id first) result))))
  /\ (forall st : ConversationState,
        start workflow None = Returned st ->
        last_node st = Some (node_id first) /\ done st = false).
Proof.
  intros Hn _. split; [now apply (start_no_input workflow first rest)|].
  intros st. rewrite (start_no_input workflow first rest Hn).
  unfold try_with, and_then.
  destruct (to_graph_fn first) as [fn|]; [|discriminate].
  destruct (fn _); [|discriminate]. now intros [= <-].
Qed.

End StartFacts.

Lemma start_no_input_first_node_only_witness :
  @start demo_builtins demo_jmespath object_client survey_workflow None
  = Returned {| messages := [mk_message "assistant" "How was your day?"];
                variables := ∅; last_node := Some "ask"; done := false |}.
Proof.
  pose (first := {| node_id := "ask"; node_type := Prompt;
                    config := text_config "How was your day?"; next := None |}).
  destruct (@start_no_input_first_node_only demo_builtins demo_jmespath
              object_client survey_workflow first [] eq_refl
              ltac:(discriminate)) as (Hstart & _).
  rewrite Hstart. vm_compute. reflexivity.
Defined.

(** C1, as the claim has it: [done] after [start()] would be true exactly
    when the first node has no successor or is an Output node.  The
    workflow with a single prompt refutes it: the prompt has no successor
    and [start()] returns [done = false]. *)
Lemma start_single_prompt_open :
  ~ (forall (wf : Workflow) (first : Node) (rest : list Node)
            (st : ConversationState),
       nodes wf = first :: rest ->
       @start demo_builtins demo_jmespath object_client wf None = Returned st ->
       (done st = true <->
        (find_successor wf (node_id first) = None \/ node_type first = Output))).
Proof.
  intros Hclaim.
  pose (first := {| node_id := "ask"; node_type := Prompt;
                    config := text_config "How was your day?"; next := None |}).
  pose (st := {| messages := [mk_message "assistant" "How was your day?"];
                 variables := ∅; last_node := Some "ask"; done := false |}).
  assert (Hstart : @start demo_builtins demo_jmespath object_client
                     survey_workflow None = Returned st)
    by (vm_compute; reflexivity).
  destruct (Hclaim survey_workflow first [] st eq_refl Hstart) as [_ Hdone].
  assert (Hfalse : done st = true) by (apply Hdone; left; reflexivity).
  discriminate Hfalse.
Qed.

(** The same call on a workflow whose only node is an Output node: the
    executor sets [done], [start] resets it. *)
Example start_single_output :
  find_successor farewell_workflow "bye" = None /\
  @start demo_builtins demo_jmespath object_client farewell_workflow None
  = Returned {| messages := [mk_message "assistant" "Goodbye!"];
                variables := ∅; last_node := Some "bye"; done := false |}.
Proof. split; vm_compute; reflexivity. Qed.

(** C2. In the looping workflow the Output node [reply] has a [next]
    property.  Its executor, called on the state [step] hands to it, returns
    [done = true]; [step] returns the same state with [done = false]. *)
Theorem step_output_with_successor_not_done :
  let s0 := {| messages := [mk_message "assistant" "Hi! What's your name?"];
               variables := ∅; last_node := Some "ask_name"; done := false |} in
  let s1 := {| messages := [mk_message "assistant" "Hi! What's your name?";
                            mk_message "user" "Alice";
                            mk_message "assistant" "Thanks, Alice!"];
               variables := {[ "name" := VStr "Alice" ]};
               last_node := Some "reply"; done := true |} in
  @start demo_builtins demo_jmespath object_client looping_workflow None
  = Returned s0 /\
  @output_fn demo_builtins
     {| node_id := "reply"; node_type := Output;
        config := text_config "Thanks, {{name}}!"; next := Some "ask_name" |}
     (VStr "Thanks, {{name}}!") (append_message (mk_message "user" "Alice") s0)
  = Returned s1 /\
  @step demo_builtins demo_jmespath object_client looping_workflow s0 "Alice"
  = Returned (set_done false s1).
Proof. repeat split; vm_compute; reflexivity. Qed.

(** C3. In the mixed workflow [step] runs the prompt [confirm], which has
    no outgoing edge but a [next] property; no chaining applies (its
    successor is a Prompt node).  The lookup used by [step] finds that
    successor, and yet the returned state has [done = true]. *)
Theorem step_done_despite_next_pointer :
  let ask := {| node_id := "ask"; node_type := Prompt;
                config := text_config "What do you need?"; next := None |} in
  let s0 := {| messages := [mk_message "assistant" "What do you need?"];
               variables := ∅; last_node := Some "ask"; done := false |} in
  @start demo_builtins demo_jmespath object_client mixed_workflow None
  = Returned s0 /\
  @step demo_builtins demo_jmespath object_client mixed_workflow s0 "help"
  = Returned {| messages := [mk_message "assistant" "What do you need?";
                             mk_message "user" "help";
                             mk_message "assistant" "Anything else?"];
                variables := {[ "user_input" := VStr "help" ]};
                last_node := Some "confirm"; done := true |} /\
  find_successor mixed_workflow "confirm" = Some ask.
Proof. repeat split; vm_compute; reflexivity. Qed.

(** C4. The state with [done = true] that [start] and one [step] reach in
    the mixed workflow is not terminal: a further [step] appends a user and
    an assistant message, changes [variables] and returns [done = false]. *)
Theorem step_after_done_runs_on :
  let s0 := {| messages := [mk_message "assistant" "What do you need?"];
               variables := ∅; last_node := Some "ask"; done := false |} in
  let s1 := {| messages := [mk_message "assistant" "What do you need?";
                            mk_message "user" "help";
                            mk_message "assistant" "Anything else?"];
               variables := {[ "user_input" := VStr "help" ]};
               last_node := Some "confirm"; done := true |} in
  @start demo_builtins demo_jmespath object_client mixed_workflow None
  = Returned s0 /\
  @step demo_builtins demo_jmespath object_client mixed_workflow s0 "help"
  = Returned s1 /\
  @step demo_builtins demo_jmespath object_client mixed_workflow s1 "no"
  = Returned {| messages := messages s1 ++ [mk_message "user" "no";
                                            mk_message "assistant" "What do you need?"];
                variables := {[ "user_input" := VStr "no" ]};
                last_node := Some "ask"; done := false |}.
Proof. repeat split; vm_compute; reflexivity. Qed.

(** ** Step driver: errors and chaining *)

Section ExecutorFacts.
Context `{Builtins} `{JMESPath} `{LLMClient}.

Lemma store_user_reply_messages (key : string) (st : ConversationState) :
  messages (store_user_reply key st) = messages st.
Proof.
  unfold store_user_reply. destruct (last (messages st)) as [m|]; [|reflexivity].
  now destruct (String.eqb (role m) "user").
Qed.

Lemma assign_expressions_raised (state_dict : value)
    (expressions : list (string * setvar_expr)) (st st' : ConversationState) (e : exn) :
  assign_expressions state_dict expressions st = Raised e st' ->
  messages st' = messages st.
Proof.
  revert st. induction expressions as [|[var_name [c|v]] more IH]; intros st; simpl.
  - discriminate.
  - unfold try_with. destruct (jmespath_search c state_dict) as [v|err].
    + intros Hr. now rewrite (IH _ Hr).
    + now intros [= _ <-].
  - intros Hr. now rewrite (IH _ Hr).
Qed.

(** An executor that raises has appended no message. *)
Lemma executor_raised_messages (node : Node) (fn : executor)
    (st st' : ConversationState) (e : exn) :
  to_graph_fn node = Ok fn ->
  fn st = Raised e st' ->
  messages st' = messages st.
Proof.
  unfold to_graph_fn. destruct (node_type node).
  - unfold PromptNode. destruct (config node !! "text") as [text|]; [|discriminate].
    intros [= <-]. unfold prompt_fn, try_with.
    destruct (render_config text _); [discriminate|].
    intros [= _ <-]. apply store_user_reply_messages.
  - unfold LLMNode.
    destruct (config node !! "prompt") as [prompt|]; [|discriminate].
    destruct (config node !! "extract") as [[]|]; try discriminate.
    intros [= <-]. unfold llm_fn, try_with.
    destruct (last_user_message (messages st)) as [um|]; [|now intros [= _ <-]].
    destruct (render_config prompt _); [|now intros [= _ <-]].
    destruct (complete _ _ _) as [res|]; [|now intros [= _ <-]].
    destruct res; try discriminate.
    destruct (extract_fields _ _ _) as [extracted|]; [|now intros [= _ <-]].
    destruct (new_message _ _); [discriminate|].
    now intros [= _ <-].
  - unfold IfNode.
    destruct (config node !! "condition") as [cond|]; [|discriminate].
    destruct (config node !! "true_target") as [tt|]; [|discriminate].
    destruct (config node !! "false_target") as [ft|]; [|discriminate].
    destruct cond; try discriminate.
    destruct (create_router s) as [route|]; [|discriminate].
    intros [= <-]. unfold if_fn, try_with.
    destruct (route st); [discriminate|]. now intros [= _ <-].
  - unfold SetVarNode.
    destruct (config node !! "variables") as [[]|]; try discriminate.
    destruct (compile_expressions d) as [expressions|]; [|discriminate].
    intros [= <-]. unfold setvar_fn, and_then.
    destruct (assign_expressions _ _ _) eqn:E; [discriminate|].
    intros [= <- <-]. now apply assign_expressions_raised in E.
  - unfold OutputNode. destruct (config node !! "text") as [text|]; [|discriminate].
    intros [= <-]. unfold output_fn, try_with.
    destruct (render_config text _); [discriminate|].
    intros [= _ <-]. apply store_user_reply_messages.
Qed.


Variable workflow : Workflow.

(** [step] up to the first executor. *)
Lemma step_first_executor (st : ConversationState) (txt : string)
    (first node : Node) (rest : list Node) (fn : executor) :
  nodes workflow = first :: rest ->
  find_next_node workflow first st = Some node ->
  to_graph_fn node = Ok fn ->
  forall (e : exn) (st' : ConversationState),
    fn (append_message (mk_message "user" txt) st) = Raised e st' ->
    step workflow st txt = Raised e st'.
Proof.
  intros Hn Hpick Hfn e st' Hraise. unfold step.
  rewrite Hn, Hpick, Hfn. simpl. now rewrite Hraise.
Qed.


(** C10. When [step] has picked a node and built its graph function, the
    user message is appended before the function runs: if the function
    raises, [step] raises the same error, and the state object the caller
    passed in then holds its old messages followed by that user message. *)
Theorem step_not_atomic (st : ConversationState) (txt : string)
    (first node : Node) (rest : list Node) (fn : executor)
    (e : exn) (st' : ConversationState) :
  nodes workflow = first :: rest ->
  find_next_node workflow first st = Some node ->
  to_graph_fn node = Ok fn ->
  fn (append_message (mk_message "user" txt) st) = Raised e st' ->
  step workflow st txt = Raised e st' /\
  messages st' = messages st ++ [mk_message "user" txt].
Proof.
  intros Hn Hpick Hfn Hraise. split.
  - eapply step_first_executor; eauto.
  - now rewrite (executor_raised_messages node fn _ st' e Hfn Hraise).
Qed.

End ExecutorFacts.

Lemma step_not_atomic_witness :
  exists st' : ConversationState,
    @step demo_builtins demo_jmespath object_client branching_workflow
      empty_state "hello" = Raised ValueError st' /\
    messages st' = messages empty_state ++ [mk_message "user" "hello"].
Proof.
  pose (node := {| node_id := "check"; node_type := If;
                   config := {[ "condition" := VStr "last_node";
                                "true_target" := VStr "yes";
                                "false_target" := VStr "no" ]};
                   next := None |}).
  exists (append_message (mk_message "user" "hello") empty_state).
  apply (@step_not_atomic demo_builtins demo_jmespath object_client
           branching_workflow empty_state "hello" node node []
           (@if_fn node (@evaluate_expression demo_jmespath "last_node")
              (VStr "yes") (VStr "no"))
           ValueError (append_message (mk_message "user" "hello") empty_state)).
  - reflexivity.
  - reflexivity.
  - vm_compute. reflexivity.
  - vm_compute. reflexivity.
Defined.

Section ChainingFacts.
Context `{Builtins} `{JMESPath} `{LLMClient}.
Variable workflow : Workflow.


End ChainingFacts.


(** ** LLM node *)



(** Output that [json.loads] rejects makes the OpenAI client raise. *)
Lemma OpenAIClient_unparseable `{ChatBackend} (prompt system text : string)
    (c : ascii) (e : exn) :
  chat_completion prompt system true = Ok (Some (String c text)) ->
  json_loads (String c text) = Err e ->
  @complete OpenAIClient prompt system true = Err e.
Proof. intros Hc Hj. simpl. now rewrite Hc; simpl; rewrite Hj. Qed.


Example llm_fn_plain_text :
  @llm_fn demo_builtins text_client extract_node
    (VStr "User said: {{user_input}}") [VStr "name"] (user_said "I am Alice")
  = Returned (set_last_node "extract" (user_said "I am Alice")).
Proof. vm_compute. reflexivity. Qed.

(** * Further properties of the engine *)

(** ** What a call may do to the state *)

Definition final_state (o : outcome) : ConversationState :=
  match o with
  | Returned st => st
  | Raised _ st => st
  end.

Definition is_assistant (m : Message) : Prop := role m = "assistant".

(** [s'] comes from [s] by appending at most [n] assistant messages and by
    writing variables, none being removed. *)
Definition advances (n : nat) (s s' : ConversationState) : Prop :=
  (exists extra : list Message,
      messages s' = messages s ++ extra /\ (length extra <= n)%nat /\
      Forall is_assistant extra)
  /\ (forall k : string, is_Some (variables s !! k) -> is_Some (variables s' !! k)).

Lemma advances_refl (s : ConversationState) : advances 0 s s.
Proof.
  split; [|auto]. exists []. rewrite app_nil_r. repeat split; auto.
Qed.

Lemma advances_trans (a b : nat) (s1 s2 s3 : ConversationState) :
  advances a s1 s2 -> advances b s2 s3 -> advances (a + b) s1 s3.
Proof.
  intros [(e1 & M1 & L1 & F1) K1] [(e2 & M2 & L2 & F2) K2]. split; [|auto].
  exists (e1 ++ e2). rewrite M2, M1, <- app_assoc. repeat split.
  - rewrite length_app. lia.
  - apply Forall_app; auto.
Qed.

Lemma advances_le (a b : nat) (s s' : ConversationState) :
  (a <= b)%nat -> advances a s s' -> advances b s s'.
Proof.
  intros Hle [(e & M & L & F) K]. split; [|auto].
  exists e. repeat split; auto. lia.
Qed.

Lemma advances_same (s s' : ConversationState) :
  messages s' = messages s ->
  (forall k, is_Some (variables s !! k) -> is_Some (variables s' !! k)) ->
  advances 0 s s'.
Proof.
  intros M K. split; [|auto]. exists []. rewrite app_nil_r. repeat split; auto.
Qed.

Lemma advances_set_last_node (n : string) (s : ConversationState) :
  advances 0 s (set_last_node n s).
Proof. now apply advances_same. Qed.

Lemma advances_set_done (b : bool) (s : ConversationState) :
  advances 0 s (set_done b s).
Proof. now apply advances_same. Qed.

Lemma advances_set_variable (k : string) (v : value) (s : ConversationState) :
  advances 0 s (set_variable k v s).
Proof.
  apply advances_same; [reflexivity|]. intros j Hj. simpl.
  rewrite lookup_insert_is_Some. destruct (decide (k = j)); auto.
Qed.

Lemma advances_update_variables (m : gmap string value) (s : ConversationState) :
  advances 0 s (update_variables m s).
Proof.
  apply advances_same; [reflexivity|]. intros j Hj. simpl.
  rewrite lookup_union_is_Some. now right.
Qed.

Lemma advances_append_assistant (c : string) (s : ConversationState) :
  advances 1 s (append_message (mk_message "assistant" c) s).
Proof.
  split; [|auto]. exists [mk_message "assistant" c].
  repeat split; auto. repeat constructor.
Qed.

Lemma advances_store_user_reply (key : string) (s : ConversationState) :
  advances 0 s (store_user_reply key s).
Proof.
  unfold store_user_reply. destruct (last (messages s)) as [m|];
    [|apply advances_refl].
  destruct (String.eqb (role m) "user");
    [apply advances_set_variable | apply advances_refl].
Qed.

Section Advances.
Context `{Builtins} `{JMESPath} `{LLMClient}.

Lemma assign_expressions_advances (state_dict : value)
    (expressions : list (string * setvar_expr)) (s : ConversationState) :
  advances 0 s (final_state (assign_expressions state_dict expressions s)).
Proof.
  revert s. induction expressions as [|[var_name [c|v]] more IH]; intros s; simpl.
  - apply advances_refl.
  - unfold try_with. destruct (jmespath_search c state_dict) as [v|err]; simpl.
    + apply (advances_trans 0 0 s _ _ (advances_set_variable var_name v s)), IH.
    + apply advances_refl.
  - apply (advances_trans 0 0 s _ _ (advances_set_variable var_name v s)), IH.
Qed.

(** Every node function, whether it returns or raises, appends at most
    one assistant message and removes no variable. *)
Lemma executor_advances (node : Node) (fn : executor) (s : ConversationState) :
  to_graph_fn node = Ok fn -> advances 1 s (final_state (fn s)).
Proof.
  unfold to_graph_fn. destruct (node_type node).
  - unfold PromptNode. destruct (config node !! "text") as [text|]; [|discriminate].
    intros [= <-]. unfold prompt_fn, try_with.
    destruct (render_config text _) as [rendered|]; simpl.
    + apply (advances_trans 0 1 s _ _ (advances_store_user_reply "user_input" s)).
      apply (advances_trans 1 0 _ _ _
               (advances_append_assistant rendered (store_user_reply "user_input" s))).
      apply advances_set_last_node.
    + apply (advances_le 0 1); [lia|]. apply advances_store_user_reply.
  - unfold LLMNode.
    destruct (config node !! "prompt") as [prompt|]; [|discriminate].
    destruct (config node !! "extract") as [[]|]; try discriminate.
    intros [= <-]. unfold llm_fn, try_with.
    destruct (last_user_message (messages s)) as [um|];
      [|apply (advances_le 0 1); [lia|apply advances_refl]].
    destruct (render_config prompt _);
      [|apply (advances_le 0 1); [lia|apply advances_refl]].
    destruct (complete _ _ _) as [res|];
      [|apply (advances_le 0 1); [lia|apply advances_refl]].
    destruct res;
      try (apply (advances_le 0 1); [lia|apply advances_set_last_node]).
    destruct (extract_fields _ _ _) as [extracted|];
      [|apply (advances_le 0 1); [lia|apply advances_refl]].
    destruct (match extracted !! "response" with
              | Some v => v
              | None => VStr (py_str (VDict d))
              end) as [| | | |c| |]; simpl;
      try (apply (advances_le 0 1); [lia|apply advances_update_variables]).
    apply (advances_trans 0 1 s _ _ (advances_update_variables extracted s)).
    apply (advances_trans 1 0 _ _ _
             (advances_append_assistant c (update_variables extracted s))).
    apply advances_set_last_node.
  - unfold IfNode.
    destruct (config node !! "condition") as [cond|]; [|discriminate].
    destruct (config node !! "true_target") as [tt|]; [|discriminate].
    destruct (config node !! "false_target") as [ft|]; [|discriminate].
    destruct cond; try discriminate.
    destruct (create_router s0) as [route|]; [|discriminate].
    intros [= <-]. unfold if_fn, try_with. apply (advances_le 0 1); [lia|].
    destruct (route s); simpl; [|apply advances_refl].
    apply (advances_trans 0 0 s _ _ (advances_set_last_node (node_id node) s)).
    apply advances_set_variable.
  - unfold SetVarNode.
    destruct (config node !! "variables") as [[]|]; try discriminate.
    destruct (compile_expressions d) as [expressions|]; [|discriminate].
    intros [= <-]. unfold setvar_fn, and_then. apply (advances_le 0 1); [lia|].
    pose proof (assign_expressions_advances (model_dump s) expressions s) as Ha.
    destruct (assign_expressions _ _ _); simpl in *; [|exact Ha].
    apply (advances_trans 0 0 s _ _ Ha). apply advances_set_last_node.
  - unfold OutputNode. destruct (config node !! "text") as [text|]; [|discriminate].
    intros [= <-]. unfold output_fn, try_with.
    destruct (render_config text _) as [rendered|]; simpl.
    + apply (advances_trans 0 1 s _ _ (advances_store_user_reply "name" s)).
      apply (advances_trans 1 0 _ _ _
               (advances_append_assistant rendered (store_user_reply "name" s))).
      apply (advances_trans 0 0 _ _ _
               (advances_set_last_node (node_id node)
                  (append_message (mk_message "assistant" rendered)
                     (store_user_reply "name" s)))).
      apply advances_set_done.
    + apply (advances_le 0 1); [lia|]. apply advances_store_user_reply.
Qed.

End Advances.

Section DriverAdvances.
Context `{Builtins} `{JMESPath} `{LLMClient}.
Variable workflow : Workflow.

Lemma and_then_advances (a b : nat) (s : ConversationState) (o : outcome)
    (k : ConversationState -> outcome) :
  advances a s (final_state o) ->
  (forall r, o = Returned r -> advances b r (final_state (k r))) ->
  advances (a + b) s (final_state (and_then o k)).
Proof.
  intros Ho Hk. destruct o as [r|e r]; simpl in *.
  - eapply advances_trans; [exact Ho | now apply Hk].
  - apply (advances_le a); [lia | exact Ho].
Qed.

Lemma update_state_advances (node : Node) (s : ConversationState) :
  advances 0 s (update_state workflow node s).
Proof. now apply advances_same. Qed.

Lemma run_node_advances (node : Node) (s : ConversationState) :
  advances 1 s (final_state (run_node workflow node s)).
Proof.
  unfold run_node, try_with.
  destruct (to_graph_fn node) as [fn|] eqn:Hfn;
    [|apply (advances_le 0 1); [lia | apply advances_refl]].
  apply (and_then_advances 1 0 s (fn s)); [now apply (executor_advances node)|].
  intros r _. apply update_state_advances.
Qed.

Lemma chain_output_advances (node : Node) (s : ConversationState) :
  advances 1 s (final_state (chain_output workflow node s)).
Proof.
  unfold chain_output.
  destruct (find_successor workflow (node_id node)) as [next_node|];
    [|apply (advances_le 0 1); [lia | apply advances_refl]].
  destruct (NodeType_eqb (node_type next_node) Output);
    [apply run_node_advances | apply (advances_le 0 1); [lia | apply advances_refl]].
Qed.

(** [step] leaves the state as it is but for [done], or appends the user
    message and then advances by at most three node executions. *)
Lemma step_shape (st : ConversationState) (txt : string) :
  final_state (step workflow st txt) = st
  \/ final_state (step workflow st txt) = set_done true st
  \/ advances 3 (append_message (mk_message "user" txt) st)
       (final_state (step workflow st txt)).
Proof.
  unfold step. destruct (nodes workflow) as [|first rest]; [now left|].
  destruct (find_next_node workflow first st) as [node|]; [|now right; left].
  unfold try_with. destruct (to_graph_fn node) as [fn|] eqn:Hfn; [|now left].
  right; right.
  set (s1 := append_message (mk_message "user" txt) st).
  apply (and_then_advances 1 2 s1 (fn s1)); [now apply (executor_advances node)|].
  intros r _.
  assert (Hu : advances 0 r (update_state workflow node r))
    by apply update_state_advances.
  set (r1 := update_state workflow node r) in *.
  assert (Hstay : advances 2 r (final_state (Returned r1)))
    by (apply (advances_le 0 2); [lia | exact Hu]).
  destruct (node_type node); try exact Hstay.
  - destruct (find_successor workflow (node_id node)) as [nn|]; [|exact Hstay].
    destruct (NodeType_eqb (node_type nn) LLM); [|exact Hstay].
    apply (advances_trans 0 2 r r1 _ Hu).
    apply (and_then_advances 1 1 r1 (run_node workflow nn r1));
      [apply run_node_advances|].
    intros r2 _. destruct (done r2);
      [apply (advances_le 0 1); [lia | apply advances_refl]
      | apply chain_output_advances].
  - destruct (done r1); [exact Hstay|].
    apply (advances_trans 0 2 r r1 _ Hu).
    apply (advances_le 1 2); [lia | apply chain_output_advances].
Qed.

(** X1. Whatever [step] does, returning or raising, the messages of the
    state afterwards are the old messages, either unchanged or followed by
    the user message and at most three assistant messages. *)
Theorem step_messages_append_only (st : ConversationState) (txt : string) :
  messages (final_state (step workflow st txt)) = messages st
  \/ exists extra : list Message,
       messages (final_state (step workflow st txt))
       = messages st ++ mk_message "user" txt :: extra
       /\ (length extra <= 3)%nat
       /\ Forall is_assistant extra.
Proof.
  destruct (step_shape st txt) as [-> | [-> | [(extra & M & L & F) _]]];
    [now left | now left |].
  right. exists extra. split; [|now split].
  rewrite M. simpl. now rewrite <- app_assoc.
Qed.

(** X2. Whatever [step] does, returning or raising, every variable bound
    before the call is still bound after it. *)
Theorem step_keeps_variables (st : ConversationState) (txt : string) (k : string) :
  is_Some (variables st !! k) ->
  is_Some (variables (final_state (step workflow st txt)) !! k).
Proof.
  intros Hk.
  destruct (step_shape st txt) as [-> | [-> | [_ K]]]; auto.
Qed.

End DriverAdvances.

Lemma step_keeps_variables_witness :
  is_Some (variables
             (final_state
                (@step demo_builtins demo_jmespath object_client greeting_workflow
                   {| messages := [mk_message "assistant" "Hi! What's your name?"];
                      variables := {[ "lang" := VStr "en" ]};
                      last_node := Some "ask_name"; done := false |} "Alice"))
           !! "lang").
Proof.
  apply (@step_keeps_variables demo_builtins demo_jmespath object_client).
  vm_compute. eauto.
Defined.

(** ** Graph resolver *)

Section ResolverFacts.
Variable workflow : Workflow.

Lemma find_first_spec {A : Type} (f : A -> bool) (l : list A) :
  (forall x, find f l = Some x ->
     exists pre post, l = pre ++ x :: post /\ f x = true
                      /\ forall y, In y pre -> f y = false)
  /\ (find f l = None <-> forall y, In y l -> f y = false).
Proof.
  induction l as [|a l [IHsome IHnone]]; simpl.
  - split; [discriminate|]. split; [intros _ y []|reflexivity].
  - destruct (f a) eqn:Fa.
    + split.
      * intros x [= <-]. exists [], l. repeat split; auto. intros y [].
      * split; [discriminate|]. intros Hall.
        rewrite (Hall a (or_introl eq_refl)) in Fa. discriminate.
    + split.
      * intros x Hx. destruct (IHsome x Hx) as (pre & post & -> & Fx & Hpre).
        exists (a :: pre), post. repeat split; auto.
        intros y [<- | Hy]; auto.
      * rewrite IHnone. split.
        -- intros Hall y [<- | Hy]; auto.
        -- intros Hall y Hy. apply Hall. now right.
Qed.

(** X3. [_find_node_by_id] returns the first node of the workflow that
    carries the id (a later node with the same id is never found), and
    [None] exactly when no node carries it. *)
Theorem find_node_by_id_first (id : string) :
  (forall n : Node,
     _find_node_by_id workflow id = Some n ->
     exists pre post : list Node,
       nodes workflow = pre ++ n :: post /\ node_id n = id
       /\ forall x, In x pre -> node_id x <> id)
  /\ (_find_node_by_id workflow id = None <->
      forall x, In x (nodes workflow) -> node_id x <> id).
Proof.
  unfold _find_node_by_id.
  destruct (find_first_spec (fun node => String.eqb (node_id node) id)
              (nodes workflow)) as [Hsome Hnone].
  split.
  - intros n Hn. destruct (Hsome n Hn) as (pre & post & Hl & Hid & Hpre).
    exists pre, post. split; [exact Hl|]. split; [now apply String.eqb_eq|].
    intros x Hx. apply String.eqb_neq. now apply Hpre.
  - rewrite Hnone. split; intros Hall x Hx.
    + apply String.eqb_neq. now apply Hall.
    + apply String.eqb_neq. now apply Hall.
Qed.

Lemma find_node_by_id_self (id : string) (n : Node) :
  _find_node_by_id workflow id = Some n ->
  _find_node_by_id workflow (node_id n) = Some n.
Proof.
  intros Hn. destruct (find_node_by_id_first id) as [Hsome _].
  destruct (Hsome n Hn) as (_ & _ & _ & -> & _). exact Hn.
Qed.

Lemma find_skip {A : Type} (f : A -> bool) (pre post : list A) (x : A) :
  (forall y, In y pre -> f y = false) -> f x = true ->
  find f (pre ++ x :: post) = Some x.
Proof.
  intros Hpre Hx. induction pre as [|a pre IH]; simpl.
  - now rewrite Hx.
  - rewrite (Hpre a (or_introl eq_refl)). apply IH.
    intros y Hy. apply Hpre. now right.
Qed.

(** X4. Among the edges that leave a node only the first one counts, and
    its condition is not looked at: when its target is a node of the
    workflow, that node is the successor whatever the [next] property and
    the later edges say; when its target is no node, the later edges are
    not tried and the [next] property decides. *)
Theorem find_successor_first_edge (id : string) (pre post : list Edge) (e : Edge) :
  workflow_edges workflow = pre ++ e :: post ->
  (forall x, In x pre -> source x <> id) ->
  source e = id ->
  (forall n, _find_node_by_id workflow (target e) = Some n ->
             find_successor workflow id = Some n)
  /\ (_find_node_by_id workflow (target e) = None ->
      find_successor workflow id = _find_next_node_from_next_prop workflow id).
Proof.
  intros Hedges Hpre Hsrc.
  assert (Hfind : _find_next_node_from_edges workflow id
                  = _find_node_by_id workflow (target e)).
  { unfold _find_next_node_from_edges. rewrite Hedges.
    rewrite (find_skip _ pre post e); [reflexivity| |].
    - intros y Hy. apply String.eqb_neq. now apply Hpre.
    - now apply String.eqb_eq. }
  unfold find_successor. rewrite Hfind. split.
  - now intros n ->.
  - now intros ->.
Qed.

End ResolverFacts.

Lemma find_successor_first_edge_witness :
  find_successor mixed_workflow "ask"
  = Some {| node_id := "confirm"; node_type := Prompt;
            config := text_config "Anything else?"; next := Some "ask" |}.
Proof.
  apply (proj1 (find_successor_first_edge mixed_workflow "ask" []
                  [] {| edge_id := "e1"; source := "ask"; target := "confirm";
                        condition := None |}
                  eq_refl (fun x (Hx : In x []) => match Hx with end) eq_refl)).
  vm_compute. reflexivity.
Defined.

(** ** Terminal states of workflows without edges *)

Section TerminalFacts.
Context `{Builtins} `{JMESPath} `{LLMClient}.
Variable workflow : Workflow.

Lemma find_successor_self (id : string) (n : Node) :
  find_successor workflow id = Some n ->
  _find_node_by_id workflow (node_id n) = Some n.
Proof.
  unfold find_successor, _find_next_node_from_edges, _find_next_node_from_next_prop.
  destruct (find _ (workflow_edges workflow)) as [e|].
  - destruct (_find_node_by_id workflow (target e)) as [m|] eqn:Em.
    + intros [= <-]. now apply (find_node_by_id_self workflow (target e)).
    + destruct (_find_node_by_id workflow id) as [c|]; [|discriminate].
      destruct (truthy (next c)); [|discriminate].
      destruct (next c) as [nx|]; [|discriminate].
      apply find_node_by_id_self.
  - destruct (_find_node_by_id workflow id) as [c|]; [|discriminate].
    destruct (truthy (next c)); [|discriminate].
    destruct (next c) as [nx|]; [|discriminate].
    apply find_node_by_id_self.
Qed.

Lemma run_node_returned (node : Node) (s s' : ConversationState) :
  run_node workflow node s = Returned s' ->
  exists r, s' = update_state workflow node r.
Proof.
  unfold run_node, try_with, and_then.
  destruct (to_graph_fn node) as [fn|]; [|discriminate].
  destruct (fn s) as [r|]; [|discriminate].
  intros [= <-]. now exists r.
Qed.

Lemma chain_output_returned (node : Node) (r s' : ConversationState) :
  _find_node_by_id workflow (node_id node) = Some node ->
  chain_output workflow node (update_state workflow node r) = Returned s' ->
  exists m r', s' = update_state workflow m r'
               /\ _find_node_by_id workflow (node_id m) = Some m.
Proof.
  intros Hself. unfold chain_output.
  destruct (find_successor workflow (node_id node)) as [nn|] eqn:Hnn.
  - destruct (NodeType_eqb (node_type nn) Output).
    + intros (r' & ->)%run_node_returned. exists nn, r'. split; [reflexivity|].
      now apply (find_successor_self (node_id node)).
    + intros [= <-]. now exists node, r.
  - intros [= <-]. now exists node, r.
Qed.

(** What [step] returns: the state untouched (no nodes), the state marked
    done (no successor), or the update made for the last node it ran, a
    node that its own id finds. *)
Lemma step_last_executed (st st' : ConversationState) (txt : string) :
  step workflow st txt = Returned st' ->
  (nodes workflow = [] /\ st' = st)
  \/ (exists first rest, nodes workflow = first :: rest
                         /\ find_next_node workflow first st = None
                         /\ st' = set_done true st)
  \/ (exists m r, st' = update_state workflow m r
                  /\ _find_node_by_id workflow (node_id m) = Some m).
Proof.
  unfold step. destruct (nodes workflow) as [|first rest] eqn:Hn.
  - intros [= <-]. now left.
  - destruct (find_next_node workflow first st) as [node|] eqn:Hpick.
    + assert (Hself : _find_node_by_id workflow (node_id node) = Some node).
      { unfold find_next_node in Hpick. destruct (truthy (last_node st)).
        - destruct (last_node st) as [id|]; [|discriminate].
          now apply (find_successor_self id).
        - injection Hpick as <-. unfold _find_node_by_id. rewrite Hn. simpl.
          now rewrite String.eqb_refl. }
      unfold try_with, and_then.
      destruct (to_graph_fn node) as [fn|]; [|discriminate].
      destruct (fn _) as [r|]; [|discriminate].
      intros Hret. right; right.
      assert (Hhere : exists m r', Returned (update_state workflow node r)
                                   = Returned (update_state workflow m r')
                                   /\ _find_node_by_id workflow (node_id m) = Some m)
        by (now exists node, r).
      assert (Hfin : forall s, Returned (update_state workflow node r) = Returned s ->
                exists m r', s = update_state workflow m r'
                             /\ _find_node_by_id workflow (node_id m) = Some m)
        by (intros s [= <-]; now exists node, r).
      destruct (node_type node); try (now apply Hfin).
      * destruct (find_successor workflow (node_id node)) as [nn|] eqn:Hnn;
          [|now apply Hfin].
        destruct (NodeType_eqb (node_type nn) LLM); [|now apply Hfin].
        destruct (run_node workflow nn _) as [r2|] eqn:Hrun; [|discriminate].
        simpl in Hret.
        apply run_node_returned in Hrun as (r' & ->).
        assert (Hnnself : _find_node_by_id workflow (node_id nn) = Some nn)
          by now apply (find_successor_self (node_id node)).
        destruct (done (update_state workflow nn r')).
        -- injection Hret as <-. now exists nn, r'.
        -- now apply (chain_output_returned nn r').
      * destruct (done (update_state workflow node r)); [now apply Hfin|].
        now apply (chain_output_returned node r).
    + intros [= <-]. right; left. now exists first, rest.
Qed.

Lemma set_done_true_id (s : ConversationState) :
  done s = true -> set_done true s = s.
Proof. destruct s; simpl; now intros ->. Qed.

(** X5. In a workflow without edges, a state that [step] returned with
    [done = true] and a non-empty [last_node] is terminal: every further
    [step] returns that same state, with no message added and no variable
    changed. *)
Theorem edge_free_done_is_terminal (st st' : ConversationState) (txt : string) :
  workflow_edges workflow = [] ->
  step workflow st txt = Returned st' ->
  done st' = true ->
  truthy (last_node st') = true ->
  forall txt' : string, step workflow st' txt' = Returned st'.
Proof.
  intros Hedges Hstep Hdone Hlast txt'.
  destruct (step_last_executed st st' txt Hstep)
    as [[Hn ->] | [(first & rest & Hn & Hnone & ->) | (m & r & -> & Hself)]].
  - unfold step. now rewrite Hn.
  - rewrite (step_no_successor workflow _ txt' first rest Hn); [reflexivity|].
    exact Hnone.
  - destruct (nodes workflow) as [|first rest] eqn:Hn.
    { unfold _find_node_by_id in Hself. rewrite Hn in Hself. discriminate. }
    rewrite (step_no_successor workflow _ txt' first rest Hn).
    + now rewrite set_done_true_id.
    + change (done (update_state workflow m r))
        with (negb (_has_next_node workflow m)) in Hdone.
      change (last_node (update_state workflow m r))
        with (Some (node_id m)) in Hlast.
      unfold find_next_node.
      change (last_node (update_state workflow m r)) with (Some (node_id m)).
      rewrite Hlast. unfold find_successor, _find_next_node_from_edges,
        _find_next_node_from_next_prop.
      rewrite Hedges, Hself. simpl find.
      apply negb_true_iff in Hdone. unfold _has_next_node in Hdone.
      rewrite Hedges in Hdone. now rewrite Hdone.
Qed.

End TerminalFacts.

Lemma edge_free_done_is_terminal_witness :
  @step demo_builtins demo_jmespath object_client greeting_workflow
    {| messages := [mk_message "assistant" "Hi! What's your name?";
                    mk_message "user" "Alice";
                    mk_message "assistant" "Thanks, Alice!"];
       variables := {[ "name" := VStr "Alice" ]};
       last_node := Some "reply"; done := true |} "Anyone there?"
  = Returned
    {| messages := [mk_message "assistant" "Hi! What's your name?";
                    mk_message "user" "Alice";
                    mk_message "assistant" "Thanks, Alice!"];
       variables := {[ "name" := VStr "Alice" ]};
       last_node := Some "reply"; done := true |}.
Proof.
  apply (@edge_free_done_is_terminal demo_builtins demo_jmespath object_client
           greeting_workflow
           {| messages := [mk_message "assistant" "Hi! What's your name?"];
              variables := ∅; last_node := Some "ask_name"; done := false |}
           _ "Alice").
  - reflexivity.
  - vm_compute. reflexivity.
  - reflexivity.
  - reflexivity.
Defined.

(** ** Conditions of the form [name==literal] *)

Fixpoint contains_char (c : ascii) (s : string) : bool :=
  match s with
  | EmptyString => false
  | String d s' => Ascii.eqb d c || contains_char c s'
  end.

Lemma split_eqeq_no_eq (s : string) :
  contains_char "=" s = false -> PyStr.split_eqeq s = [s].
Proof.
  induction s as [|c s IH]; [reflexivity|].
  simpl contains_char. intros [Hc Hs]%orb_false_iff.
  rewrite split_eqeq_step, (IH Hs). destruct s; [reflexivity|].
  now rewrite Hc.
Qed.

Lemma split_eqeq_app (name literal : string) :
  contains_char "=" name = false ->
  PyStr.split_eqeq (name +:+ "==" +:+ literal) = name :: PyStr.split_eqeq literal.
Proof.
  induction name as [|c name IH]; intros Hname.
  - rewrite append_nil, !append_cons, append_nil. now rewrite split_eqeq_step.
  - simpl in Hname. apply orb_false_iff in Hname as [Hc Hn].
    rewrite append_cons, split_eqeq_step, (IH Hn).
    destruct (name +:+ "==" +:+ literal) as [|d rest] eqn:E.
    + destruct name; discriminate E.
    + now rewrite Hc.
Qed.

Section SimpleConditions.
Context `{JMESPath}.

(** X6. A condition [name==literal] in which neither side holds another
    [=] always yields a predicate; the predicate never raises, and it is
    true exactly when the variable called [name] (stripped of whitespace) is
    bound to the string [literal] (stripped of whitespace, then of quote
    characters at both ends).  An unbound variable, or one bound to a
    number or any other value that is not a string, gives false. *)
Theorem create_router_simple_equality (name literal : string) :
  contains_char "=" name = false ->
  contains_char "=" literal = false ->
  exists route : router,
    create_router (name +:+ "==" +:+ literal) = Ok route /\
    forall st : ConversationState,
      (route st = Ok true <->
       variables st !! PyStr.strip name
       = Some (VStr (PyStr.strip_with PyStr.is_quote (PyStr.strip literal))))
      /\ (route st = Ok true \/ route st = Ok false).
Proof.
  intros Hname Hlit.
  exists (check_equality (PyStr.strip name)
            (PyStr.strip_with PyStr.is_quote (PyStr.strip literal))).
  split.
  - apply create_router_equality.
    now rewrite (split_eqeq_app name literal Hname), (split_eqeq_no_eq literal Hlit).
  - intros st. split; [apply check_equality_true|].
    unfold check_equality.
    destruct (variables st !! PyStr.strip name) as [[]|]; auto.
    destruct (String.eqb _ _); auto.
Qed.

End SimpleConditions.

Lemma create_router_simple_equality_witness :
  exists route : @router,
    @create_router demo_jmespath "answer == 'yes'" = Ok route /\
    route {| messages := []; variables := {[ "answer" := VStr "yes" ]};
             last_node := None; done := false |} = Ok true.
Proof.
  destruct (@create_router_simple_equality demo_jmespath "answer " " 'yes'"
              eq_refl eq_refl) as (route & Hroute & Hspec).
  exists route. split; [exact Hroute|].
  apply (proj1 (Hspec _)). vm_compute. reflexivity.
Defined.

(** ** Templates: how rendering composes *)

Lemma segments_match (s body rest : string) :
  match_placeholder s = Some (body, rest) ->
  segments s = Placeholder ("{{" +:+ body +:+ "}}") body :: segments rest.
Proof.
  funelim (segments s); intros Hm.
  - discriminate.
  - rewrite e in Hm. now injection Hm as <- <-.
  - rewrite e in Hm. discriminate.
Qed.

Lemma segments_literal (c : ascii) (s : string) :
  match_placeholder (String c s) = None ->
  segments (String c s) = Literal c :: segments s.
Proof.
  remember (String c s) as t eqn:Et. revert c s Et.
  funelim (segments t); intros c0 s0 Et Hm; try discriminate.
  - rewrite e in Hm. discriminate.
  - now injection Et as <- <-.
Qed.

Lemma match_close_clean (body rest : string) :
  contains_char "}" body = false ->
  contains_char newline body = false ->
  match_close (body +:+ "}}" +:+ rest) = Some (body, rest).
Proof.
  induction body as [|c body IH]; intros Hb Hn.
  - reflexivity.
  - simpl in Hb, Hn. apply orb_false_iff in Hb as [Hc Hb].
    apply orb_false_iff in Hn as [Hcn Hn].
    rewrite append_cons. simpl match_close. rewrite (IH Hb Hn), Hc, Hcn.
    destruct (body +:+ "}}" +:+ rest); reflexivity.
Qed.

Section Rendering.
Context `{Builtins}.

Lemma render_template_literal (c : ascii) (t : string) (v : gmap string value) :
  Ascii.eqb c "{" = false ->
  render_template (String c t) v = String c (render_template t v).
Proof.
  intros Hc. unfold render_template, re_sub.
  rewrite segments_literal; [reflexivity|].
  simpl. destruct t; [reflexivity|]. now rewrite Hc.
Qed.

Lemma render_template_prefix (pre t : string) (v : gmap string value) :
  contains_char "{" pre = false ->
  render_template (pre +:+ t) v = pre +:+ render_template t v.
Proof.
  induction pre as [|c pre IH]; intros Hpre; [reflexivity|].
  simpl in Hpre. apply orb_false_iff in Hpre as [Hc Hpre].
  now rewrite !append_cons, (render_template_literal c _ v Hc), (IH Hpre).
Qed.

(** X7. Rendering goes through a template piece by piece: text without
    [{] is copied, and a placeholder whose inside has no [}] and no line
    break is replaced by [str] of the variable named by its stripped inside,
    or kept as it is when that variable is unbound; the text put in is not
    scanned again, and the rest of the template is rendered on its own. *)
Theorem render_template_compose (pre body rest : string) (v : gmap string value) :
  contains_char "{" pre = false ->
  contains_char "}" body = false ->
  contains_char newline body = false ->
  render_template (pre +:+ "{{" +:+ body +:+ "}}" +:+ rest) v
  = pre +:+ match v !! PyStr.strip body with
            | Some x => py_str x
            | None => "{{" +:+ body +:+ "}}"
            end +:+ render_template rest v.
Proof.
  intros Hpre Hbody Hnl. rewrite (render_template_prefix pre _ v Hpre).
  f_equal. unfold render_template, re_sub.
  rewrite (segments_match _ body rest).
  - simpl. unfold replace. now destruct (v !! PyStr.strip body).
  - rewrite !append_cons, append_nil. simpl.
    now apply match_close_clean.
Qed.

(** X8. A template without the character [{] is returned as it is,
    whatever the variables. *)
Theorem render_template_brace_free (t : string) (v : gmap string value) :
  contains_char "{" t = false -> render_template t v = t.
Proof.
  intros Ht.
  assert (E : forall u : string, u +:+ EmptyString = u).
  { induction u as [|c u IH]; [reflexivity|]. now rewrite append_cons, IH. }
  transitivity (render_template (t +:+ EmptyString) v); [now rewrite E|].
  rewrite (render_template_prefix t EmptyString v Ht). apply E.
Qed.

End Rendering.

Lemma render_template_compose_witness :
  @render_template demo_builtins "Dear {{ title }} {{name}}!"
    {[ "title" := VStr "{{name}}" ]}
  = "Dear {{name}} {{name}}!".
Proof.
  rewrite (@render_template_compose demo_builtins "Dear " " title " " {{name}}!"
             {[ "title" := VStr "{{name}}" ]} eq_refl eq_refl eq_refl).
  vm_compute. reflexivity.
Defined.

Lemma render_template_brace_free_witness :
  @render_template demo_builtins "Hi! What's your name?" {[ "name" := VStr "Al" ]}
  = "Hi! What's your name?".
Proof.
  apply (@render_template_brace_free demo_builtins). reflexivity.
Defined.

(** ** SetVar node *)

Section SetVarFacts.
Context `{Builtins} `{JMESPath} `{LLMClient}.




End SetVarFacts.





(** ** Construction errors, the registry and empty strings *)

Section ConstructionFacts.
Context `{Builtins} `{JMESPath} `{LLMClient}.
Variable workflow : Workflow.

(** X11. With the registrations made by nodes/__init__.py the registry
    knows every node type: [NodeRegistry.create] never fails for an unknown
    type and builds each node with the class of its type.  In a registry
    where the node's type was never registered it raises [ValueError]. *)
Theorem registry_covers_node_types (node : Node) :
  NodeRegistry.create NodeRegistry.registered node = to_graph_fn node
  /\ (forall registry : gmap string NodeRegistry.node_class,
        registry !! NodeType_value (node_type node) = None ->
        NodeRegistry.create registry node = Err ValueError).
Proof.
  split.
  - unfold NodeRegistry.create, NodeRegistry.registered, NodeRegistry.register,
      to_graph_fn.
    destruct (node_type node); simpl NodeType_value;
      repeat (rewrite lookup_insert_ne by discriminate);
      now rewrite lookup_insert_eq.
  - intros registry Hnone. unfold NodeRegistry.create, NodeRegistry.node_class in *.
    now rewrite Hnone.
Qed.

(** X12. An empty string counts as no string: [start("")] is [start()],
    and a state whose [last_node] is the empty string is stepped from the
    first node of the workflow, like a state whose [last_node] is unset. *)
Theorem empty_string_is_unset :
  start workflow (Some EmptyString) = start workflow None
  /\ (forall (st : ConversationState) (first : Node),
        last_node st = Some EmptyString ->
        find_next_node workflow first st = Some first).
Proof.
  split.
  - unfold start. destruct (nodes workflow); reflexivity.
  - intros st first Hlast. unfold find_next_node. now rewrite Hlast.
Qed.

End ConstructionFacts.

(** X13. [OpenAIClient.complete] raises [ValueError] when the content is
    missing or empty.  In text mode a result is the content itself, which
    is then never the empty string.  In JSON mode a result is what
    [json.loads] made of the non-empty content; that can be any JSON value,
    an empty object included. *)
Theorem OpenAIClient_complete_results `{ChatBackend} (prompt system : string) :
  (forall json_mode,
     chat_completion prompt system json_mode = Ok None \/
     chat_completion prompt system json_mode = Ok (Some EmptyString) ->
     @complete OpenAIClient prompt system json_mode = Err ValueError)
  /\ (forall v, @complete OpenAIClient prompt system false = Ok v ->
        exists c text, v = VStr (String c text)
                       /\ chat_completion prompt system false
                          = Ok (Some (String c text)))
  /\ (forall v, @complete OpenAIClient prompt system true = Ok v ->
        exists c text,
          chat_completion prompt system true = Ok (Some (String c text))
          /\ json_loads (String c text) = Ok v).
Proof.
  split; [|split].
  - intros json_mode [Hc | Hc]; simpl; now rewrite Hc.
  - intros v. simpl.
    destruct (chat_completion prompt system false) as [[[|c text]|]|];
      simpl; try discriminate.
    intros [= <-]. now exists c, text.
  - intros v. simpl.
    destruct (chat_completion prompt system true) as [[[|c text]|]|];
      simpl; try discriminate.
    intros Hj. now exists c, text.
Qed.

(** ** Conversion to and from the graph state *)

(** A message without its [name]. *)
Definition forget_name (m : Message) : Message := mk_message (role m) (content m).

Definition known_role (r : string) : Prop :=
  r = "assistant" \/ r = "user" \/ r = "system".

Lemma convert_from_to (msg : Message) (m : lc_message) :
  _convert_to_langchain_message msg = Ok m ->
  _convert_from_langchain_message m = forget_name msg /\ known_role (role msg).
Proof.
  unfold _convert_to_langchain_message, forget_name, known_role.
  destruct (String.eqb (role msg) "assistant") eqn:Ea.
  { apply String.eqb_eq in Ea. intros [= <-]. simpl. rewrite Ea. auto. }
  destruct (String.eqb (role msg) "user") eqn:Eu.
  { apply String.eqb_eq in Eu. intros [= <-]. simpl. rewrite Eu. auto. }
  destruct (String.eqb (role msg) "system") eqn:Es; [|discriminate].
  apply String.eqb_eq in Es. intros [= <-]. simpl. rewrite Es. auto.
Qed.

Lemma convert_to_unknown (msg : Message) :
  ~ known_role (role msg) -> _convert_to_langchain_message msg = Err ValueError.
Proof.
  unfold _convert_to_langchain_message, known_role. intros Hunk.
  destruct (String.eqb (role msg) "assistant") eqn:Ea.
  { apply String.eqb_eq in Ea. tauto. }
  destruct (String.eqb (role msg) "user") eqn:Eu.
  { apply String.eqb_eq in Eu. tauto. }
  destruct (String.eqb (role msg) "system") eqn:Es; [|reflexivity].
  apply String.eqb_eq in Es. tauto.
Qed.

Lemma convert_all_ok (msgs : list Message) (ms : list lc_message) :
  convert_all msgs = Ok ms ->
  map _convert_from_langchain_message ms = map forget_name msgs
  /\ Forall (fun msg => known_role (role msg)) msgs.
Proof.
  revert ms. induction msgs as [|msg msgs IH]; intros ms; simpl.
  - intros [= <-]. split; [reflexivity | constructor].
  - destruct (_convert_to_langchain_message msg) as [m|] eqn:Em; [|discriminate].
    simpl. destruct (convert_all msgs) as [ms'|]; [|discriminate].
    simpl. intros [= <-].
    destruct (convert_from_to msg m Em) as [Hm Hr].
    destruct (IH ms' eq_refl) as [Hms Hall].
    split; [simpl; now rewrite Hm, Hms | now constructor].
Qed.

Lemma convert_all_unknown (msgs : list Message) :
  Exists (fun msg => ~ known_role (role msg)) msgs ->
  convert_all msgs = Err ValueError.
Proof.
  induction 1 as [msg msgs Hunk | msg msgs _ IH]; simpl.
  - now rewrite (convert_to_unknown msg Hunk).
  - destruct (_convert_to_langchain_message msg) as [m|] eqn:Em.
    + simpl. now rewrite IH.
    + destruct (String.eqb (role msg) "assistant") eqn:Ea;
        unfold _convert_to_langchain_message in Em; rewrite Ea in Em;
        [discriminate|].
      destruct (String.eqb (role msg) "user"); [discriminate|].
      destruct (String.eqb (role msg) "system"); [discriminate|].
      now injection Em as <-.
Qed.

(** X15. A conversation state converted to a graph state and back keeps
    its variables, [last_node], [done] and the role and content of every
    message, and loses every message's [name]; the conversion to a graph
    state succeeds only when every role is assistant, user or system, and
    raises [ValueError] when some message has another role. *)
Theorem conversation_round_trip (conv_state : ConversationState) :
  (forall state : State,
     _conversation_to_state conv_state = Ok state ->
     _state_to_conversation state
     = {| messages := map forget_name (messages conv_state);
          variables := variables conv_state;
          last_node := last_node conv_state;
          done := done conv_state |}
     /\ Forall (fun msg => known_role (role msg)) (messages conv_state))
  /\ (Exists (fun msg => ~ known_role (role msg)) (messages conv_state) ->
      _conversation_to_state conv_state = Err ValueError).
Proof.
  split.
  - intros state. unfold _conversation_to_state.
    destruct (convert_all (messages conv_state)) as [ms|] eqn:Ems; [|discriminate].
    simpl. intros [= <-].
    destruct (convert_all_ok _ _ Ems) as [Hms Hall].
    split; [|exact Hall]. unfold _state_to_conversation. simpl. now rewrite Hms.
  - intros Hunk. unfold _conversation_to_state.
    now rewrite (convert_all_unknown _ Hunk).
Qed.

Lemma conversation_round_trip_witness :
  _conversation_to_state
    {| messages := [ {| role := "tool"; content := "42"; name := Some "calc" |} ];
       variables := ∅; last_node := None; done := false |}
  = Err ValueError.
Proof.
  apply (proj2 (conversation_round_trip _)).
  constructor. simpl. unfold known_role. intros [H | [H | H]]; discriminate H.
Defined.

(** ** Run service: history kept between calls *)

Lemma last_n_app {A : Type} (pre tail : list A) :
  last_n (length tail) (pre ++ tail) = tail.
Proof.
  unfold last_n. rewrite length_app.
  replace (length pre + length tail - length tail)%nat with (length pre) by lia.
  apply drop_app_length.
Qed.

Lemma last_n_2 {A : Type} (pre : list A) (a b : A) :
  last_n 2 (pre ++ [a; b]) = [a; b].
Proof. apply (last_n_app pre [a; b]). Qed.

Lemma last_n_1 {A : Type} (pre : list A) (a b : A) :
  last_n 1 (pre ++ [a; b]) = [b].
Proof.
  replace (pre ++ [a; b]) with ((pre ++ [a]) ++ [b])
    by now rewrite <- app_assoc.
  apply (last_n_app (pre ++ [a]) [b]).
Qed.

(** X16. The step record keeps only the last two messages of the state as
    input and the last one again as output, and [step_run] rebuilds the
    next state by concatenating input and output of every record: a state
    whose messages end with [a; b], once recorded and rebuilt, contributes
    [a; b; b].  Earlier messages of that state are not in the record, the
    rebuilt state takes its variables from the run, its [last_node] from
    the last record, and is never done. *)
Theorem step_run_history (run_variables : gmap string value) (steps : list RunStep)
    (id run_id latency now : Z) (st : ConversationState)
    (pre : list Message) (a b : Message) :
  messages st = pre ++ [a; b] ->
  let record := step_run_record id run_id latency now st in
  let rebuilt := step_run_state run_variables (steps ++ [record]) in
  messages rebuilt = messages (step_run_state run_variables steps) ++ [a; b; b]
  /\ variables rebuilt = run_variables
  /\ last_node rebuilt = Some (step_node_id record)
  /\ done rebuilt = false.
Proof.
  intros Hm record rebuilt. repeat split.
  - unfold rebuilt, step_run_state. simpl messages.
    rewrite flat_map_app. simpl. rewrite app_nil_r. f_equal.
    rewrite Hm, length_app. simpl length.
    replace (1 <? length pre + 2)%nat with true
      by (symmetry; apply Nat.ltb_lt; lia).
    rewrite last_n_2, last_n_1.
    destruct pre; reflexivity.
  - unfold rebuilt, step_run_state. simpl last_node. now rewrite last_snoc.
Qed.

Lemma step_run_history_witness :
  messages
    (step_run_state ∅
       ([] ++ [step_run_record 1 7 120 0
                 {| messages := [mk_message "assistant" "Hi! What's your name?";
                                 mk_message "user" "Alice";
                                 mk_message "assistant" "Thanks, Alice!"];
                    variables := {[ "name" := VStr "Alice" ]};
                    last_node := Some "reply"; done := true |}]))
  = [mk_message "user" "Alice"; mk_message "assistant" "Thanks, Alice!";
     mk_message "assistant" "Thanks, Alice!"].
Proof.
  apply (proj1 (step_run_history ∅ [] 1 7 120 0
                  {| messages := [mk_message "assistant" "Hi! What's your name?";
                                  mk_message "user" "Alice";
                                  mk_message "assistant" "Thanks, Alice!"];
                     variables := {[ "name" := VStr "Alice" ]};
                     last_node := Some "reply"; done := true |}
                  [mk_message "assistant" "Hi! What's your name?"]
                  (mk_message "user" "Alice")
                  (mk_message "assistant" "Thanks, Alice!") eq_refl)).
Defined.

(** ** Output node: the reply of the user in the final message *)

Section OutputFacts.
Context `{Builtins}.

(** X17. When the last message is from the user, an Output node whose
    text is [pre{{name}}post], with no [{] in [pre] and [post], stores the
    content of that message under ["name"], over any earlier value, and
    appends the assistant message made of [pre], that content and [post];
    it sets [done] and [last_node]. *)
Theorem output_fn_echo (node : Node) (pre post : string) (st : ConversationState)
    (m : Message) :
  last (messages st) = Some m ->
  role m = "user" ->
  contains_char "{" pre = false ->
  contains_char "{" post = false ->
  output_fn node (VStr (pre +:+ "{{name}}" +:+ post)) st
  = Returned {| messages := messages st
                            ++ [mk_message "assistant" (pre +:+ content m +:+ post)];
                variables := <["name" := VStr (content m)]> (variables st);
                last_node := Some (node_id node);
                done := true |}.
Proof.
  intros Hlast Hrole Hpre Hpost. unfold output_fn, store_user_reply.
  rewrite Hlast, Hrole. simpl String.eqb. cbv iota.
  unfold render_config, try_with.
  change (pre +:+ "{{name}}" +:+ post)
    with (pre +:+ "{{" +:+ "name" +:+ "}}" +:+ post).
  rewrite (render_template_compose pre "name" post _ Hpre eq_refl eq_refl).
  change (PyStr.strip "name") with "name".
  simpl variables. rewrite lookup_insert_eq. simpl py_str.
  now rewrite (render_template_brace_free post _ Hpost).
Qed.

End OutputFacts.

Lemma output_fn_echo_witness :
  @output_fn demo_builtins
    {| node_id := "reply"; node_type := Output;
       config := text_config "Thanks, {{name}}!"; next := None |}
    (VStr "Thanks, {{name}}!")
    {| messages := [mk_message "assistant" "Hi! What's your name?";
                    mk_message "user" "Alice"];
       variables := {[ "name" := VStr "nobody" ]};
       last_node := Some "ask_name"; done := false |}
  = Returned {| messages := [mk_message "assistant" "Hi! What's your name?";
                             mk_message "user" "Alice";
                             mk_message "assistant" "Thanks, Alice!"];
                variables := {[ "name" := VStr "Alice" ]};
                last_node := Some "reply"; done := true |}.
Proof.
  rewrite (@output_fn_echo demo_builtins
             {| node_id := "reply"; node_type := Output;
                config := text_config "Thanks, {{name}}!"; next := None |}
             "Thanks, " "!"
             {| messages := [mk_message "assistant" "Hi! What's your name?";
                             mk_message "user" "Alice"];
                variables := {[ "name" := VStr "nobody" ]};
                last_node := Some "ask_name"; done := false |}
             (mk_message "user" "Alice") eq_refl eq_refl eq_refl eq_refl).
  vm_compute. reflexivity.
Defined.

(** ** [start] with an input text *)

(** [s'] has the messages of [s] as a prefix and binds every variable
    that [s] binds. *)
Definition grows (s s' : ConversationState) : Prop :=
  (exists extra : list Message, messages s' = messages s ++ extra)
  /\ (forall k : string, is_Some (variables s !! k) -> is_Some (variables s' !! k)).

Lemma grows_refl (s : ConversationState) : grows s s.
Proof. split; [exists []; now rewrite app_nil_r | auto]. Qed.

Lemma grows_trans (s1 s2 s3 : ConversationState) :
  grows s1 s2 -> grows s2 s3 -> grows s1 s3.
Proof.
  intros [(e1 & M1) K1] [(e2 & M2) K2]. split; [|auto].
  exists (e1 ++ e2). now rewrite M2, M1, <- app_assoc.
Qed.

Lemma advances_grows (n : nat) (s s' : ConversationState) :
  advances n s s' -> grows s s'.
Proof. intros [(e & M & _) K]. split; [now exists e | exact K]. Qed.

Lemma grows_append (m : Message) (s : ConversationState) :
  grows s (append_message m s).
Proof. split; [now exists [m] | auto]. Qed.

Lemma and_then_grows (s : ConversationState) (o : outcome)
    (k : ConversationState -> outcome) :
  grows s (final_state o) ->
  (forall r, o = Returned r -> grows r (final_state (k r))) ->
  grows s (final_state (and_then o k)).
Proof.
  intros Ho Hk. destruct o as [r|e r]; simpl in *; [|exact Ho].
  eapply grows_trans; [exact Ho | now apply Hk].
Qed.

Section StartInput.
Context `{Builtins} `{JMESPath} `{LLMClient}.
Variable workflow : Workflow.

Lemma run_node_grows (node : Node) (s : ConversationState) :
  grows s (final_state (run_node workflow node s)).
Proof. apply (advances_grows 1), run_node_advances. Qed.

(** X18. Whatever [start] does with a non-empty input text on a workflow
    with nodes, returning or raising, the messages of the state begin with
    that text as a user message, and every variable declared by the
    workflow is bound in the state. *)
Theorem start_keeps_input (c : ascii) (text : string) :
  nodes workflow <> [] ->
  (exists extra : list Message,
      messages (final_state (start workflow (Some (String c text))))
      = mk_message "user" (String c text) :: extra)
  /\ (forall k : string,
        is_Some (wf_variables workflow !! k) ->
        is_Some (variables (final_state (start workflow (Some (String c text))))
                 !! k)).
Proof.
  intros Hne.
  set (init := {| messages := [mk_message "user" (String c text)];
                  variables := wf_variables workflow;
                  last_node := None; done := false |}).
  assert (Hg : grows init (final_state (start workflow (Some (String c text))))).
  { unfold start. destruct (nodes workflow) as [|first rest]; [done|].
    simpl truthy. cbv iota. fold init. unfold try_with.
    destruct (to_graph_fn first) as [fn|] eqn:Hfn; [|apply grows_refl].
    apply and_then_grows.
    { apply (advances_grows 1). now apply (executor_advances first). }
    intros r _. simpl andb.
    set (r1 := set_done false (set_last_node (node_id first) r)).
    assert (Hr1 : grows r r1) by (split; [exists []; now rewrite app_nil_r | auto]).
    change (done r1) with false. simpl negb. cbv iota.
    destruct (start_successor workflow first) as [nn|]; [|exact Hr1].
    destruct (NodeType_eqb (node_type nn) LLM); [|exact Hr1].
    apply (grows_trans r r1 _ Hr1).
    apply (grows_trans r1 (append_message (mk_message "user" (String c text)) r1) _
             (grows_append _ r1)).
    apply and_then_grows; [apply run_node_grows|].
    intros r2 _. destruct (done r2); [apply grows_refl|].
    destruct (start_successor workflow nn) as [nnn|]; [|apply grows_refl].
    destruct (NodeType_eqb (node_type nnn) Output);
      [apply run_node_grows | apply grows_refl]. }
  destruct Hg as [(extra & M) K]. split; [|exact K].
  exists extra. exact M.
Qed.

End StartInput.

Lemma start_keeps_input_witness :
  exists extra : list Message,
    messages (final_state
                (@start demo_builtins demo_jmespath object_client greeting_workflow
                   (Some "Alice")))
    = mk_message "user" "Alice" :: extra.
Proof.
  apply (@start_keeps_input demo_builtins demo_jmespath object_client
           greeting_workflow "A" "lice").
  discriminate.
Defined.

(** ** Where a returned [step] leaves [last_node] and [done] *)

Section LastNodeFacts.
Context `{Builtins} `{JMESPath} `{LLMClient}.
Variable workflow : Workflow.

(** X19. When [step] returns, either it ran no node and [last_node] is
    what it was, or [last_node] is the id of a node of the workflow, the
    last one it ran, and [done] is the negation of [_has_next_node] for that
    node: whatever the node functions wrote into [done] is overwritten. *)
Theorem step_last_node_in_workflow (st st' : ConversationState) (txt : string) :
  step workflow st txt = Returned st' ->
  (messages st' = messages st /\ last_node st' = last_node st)
  \/ exists m : Node,
       In m (nodes workflow)
       /\ last_node st' = Some (node_id m)
       /\ done st' = negb (_has_next_node workflow m).
Proof.
  intros Hstep.
  destruct (step_last_executed workflow st st' txt Hstep)
    as [[_ ->] | [(first & rest & _ & _ & ->) | (m & r & -> & Hself)]];
    [now left | now left |].
  right. exists m. split; [|now split].
  destruct (find_node_by_id_first workflow (node_id m)) as [Hsome _].
  destruct (Hsome m Hself) as (pre & post & -> & _).
  apply in_or_app. right. now left.
Qed.

End LastNodeFacts.

Lemma step_last_node_in_workflow_witness :
  let st := {| messages := [mk_message "assistant" "Hi! What's your name?"];
               variables := ∅; last_node := Some "ask_name"; done := false |} in
  let st' := {| messages := [mk_message "assistant" "Hi! What's your name?";
                             mk_message "user" "Alice";
                             mk_message "assistant" "Thanks, Alice!"];
                variables := {[ "name" := VStr "Alice" ]};
                last_node := Some "reply"; done := false |} in
  (messages st' = messages st /\ last_node st' = last_node st)
  \/ exists m : Node,
       In m (nodes looping_workflow)
       /\ last_node st' = Some (node_id m)
       /\ done st' = negb (_has_next_node looping_workflow m).
Proof.
  intros st st'.
  apply (@step_last_node_in_workflow demo_builtins demo_jmespath object_client
           looping_workflow st st' "Alice").
  vm_compute. reflexivity.
Defined.

(** ** If node with an equality condition *)

Section IfFacts.
Context `{Builtins} `{JMESPath} `{LLMClient}.

(** X20. An If node whose condition is [name==literal], with no other [=]
    on either side, can always be built, and its function never raises: it
    stores under ["_next"] the true target when the variable [name] is bound
    to the string [literal] (both trimmed as the router does) and the false
    target otherwise, sets [last_node], and leaves the messages, [done] and
    the other variables as they were. *)
Theorem if_node_equality (node : Node) (name literal : string)
    (true_target false_target : value) :
  node_type node = If ->
  config node !! "condition" = Some (VStr (name +:+ "==" +:+ literal)) ->
  config node !! "true_target" = Some true_target ->
  config node !! "false_target" = Some false_target ->
  contains_char "=" name = false ->
  contains_char "=" literal = false ->
  exists fn : executor,
    to_graph_fn node = Ok fn /\
    forall st : ConversationState,
      exists chosen : value,
        fn st = Returned (set_variable "_next" chosen
                            (set_last_node (node_id node) st))
        /\ (variables st !! PyStr.strip name
            = Some (VStr (PyStr.strip_with PyStr.is_quote (PyStr.strip literal))) ->
            chosen = true_target)
        /\ (variables st !! PyStr.strip name
            <> Some (VStr (PyStr.strip_with PyStr.is_quote (PyStr.strip literal))) ->
            chosen = false_target).
Proof.
  intros Htype Hcond Htt Hft Hname Hlit.
  destruct (create_router_simple_equality name literal Hname Hlit)
    as (route & Hroute & Hspec).
  exists (if_fn node route true_target false_target). split.
  - unfold to_graph_fn. rewrite Htype. unfold IfNode.
    rewrite Hcond, Htt, Hft, Hroute. reflexivity.
  - intros st. destruct (Hspec st) as [Hiff [Htrue | Hfalse]].
    + exists true_target. unfold if_fn, try_with. rewrite Htrue.
      split; [reflexivity|]. split; [reflexivity|].
      intros Hne. now apply Hiff in Htrue.
    + exists false_target. unfold if_fn, try_with. rewrite Hfalse.
      split; [reflexivity|]. split; [|reflexivity].
      intros Heq. apply Hiff in Heq. rewrite Heq in Hfalse. discriminate.
Qed.

End IfFacts.

Lemma if_node_equality_witness :
  let node := {| node_id := "check"; node_type := If;
                 config := {[ "condition" := VStr "answer == 'yes'";
                              "true_target" := VStr "book";
                              "false_target" := VStr "bye" ]};
                 next := None |} in
  exists fn : executor,
    @to_graph_fn demo_builtins demo_jmespath object_client node = Ok fn.
Proof.
  intros node.
  destruct (@if_node_equality demo_builtins demo_jmespath object_client node
              "answer " " 'yes'" (VStr "book") (VStr "bye")
              eq_refl eq_refl eq_refl eq_refl eq_refl eq_refl)
    as (fn & Hfn & _).
  now exists fn.
Defined.

(** ** LLM node: errors on every path of [step] and [start] *)



Section LLMFacts.
Context `{Builtins} `{JMESPath} `{LLMClient}.



End LLMFacts.




(** ** Errors of [step] on a constructed engine *)

Section ConstructedEngine.
Context `{Builtins} `{JMESPath} `{LLMClient}.
Variable workflow : Workflow.

(** The first loop of [_build_graph] (engine.py lines 74-78), run by the
    constructor: every node of the workflow is created and its graph
    function built.  The LangGraph calls that follow are not modelled. *)
Fixpoint build_node_functions (ns : list Node) : result (list executor) :=
  match ns with
  | [] => Ok []
  | node :: more =>
      bind (to_graph_fn node) (fun fn =>
      bind (build_node_functions more) (fun fns => Ok (fn :: fns)))
  end.

Lemma build_node_functions_ok (ns : list Node) (fns : list executor) :
  build_node_functions ns = Ok fns ->
  forall node, In node ns -> exists fn, to_graph_fn node = Ok fn.
Proof.
  revert fns. induction ns as [|n ns IH]; intros fns Hb node Hin; [destruct Hin|].
  simpl in Hb. destruct (to_graph_fn n) as [fn|] eqn:Hfn; [|discriminate].
  simpl in Hb. destruct (build_node_functions ns) as [fns'|]; [|discriminate].
  destruct Hin as [<- | Hin]; [now exists fn | now apply (IH fns')].
Qed.

Lemma find_next_node_in (first node : Node) (rest : list Node)
    (st : ConversationState) :
  nodes workflow = first :: rest ->
  find_next_node workflow first st = Some node ->
  In node (nodes workflow).
Proof.
  intros Hn Hpick. unfold find_next_node in Hpick.
  destruct (truthy (last_node st)).
  - destruct (last_node st) as [id|]; [|discriminate].
    apply (find_successor_self workflow id) in Hpick.
    destruct (find_node_by_id_first workflow (node_id node)) as [Hsome _].
    destruct (Hsome node Hpick) as (pre & post & -> & _).
    apply in_or_app. right. now left.
  - injection Hpick as <-. rewrite Hn. now left.
Qed.

(** Once the picked node is built, [step] appends the user message and
    then only advances. *)
Lemma step_built_advances (st : ConversationState) (txt : string)
    (first node : Node) (rest : list Node) (fn : executor) :
  nodes workflow = first :: rest ->
  find_next_node workflow first st = Some node ->
  to_graph_fn node = Ok fn ->
  advances 3 (append_message (mk_message "user" txt) st)
    (final_state (step workflow st txt)).
Proof.
  intros Hn Hpick Hfn. unfold step. rewrite Hn, Hpick. unfold try_with.
  rewrite Hfn.
  set (s1 := append_message (mk_message "user" txt) st).
  apply (and_then_advances 1 2 s1 (fn s1)); [now apply (executor_advances node)|].
  intros r _.
  assert (Hu : advances 0 r (update_state workflow node r))
    by apply update_state_advances.
  set (r1 := update_state workflow node r) in *.
  assert (Hstay : advances 2 r (final_state (Returned r1)))
    by (apply (advances_le 0 2); [lia | exact Hu]).
  destruct (node_type node); try exact Hstay.
  - destruct (find_successor workflow (node_id node)) as [nn|]; [|exact Hstay].
    destruct (NodeType_eqb (node_type nn) LLM); [|exact Hstay].
    apply (advances_trans 0 2 r r1 _ Hu).
    apply (and_then_advances 1 1 r1 (run_node workflow nn r1));
      [apply run_node_advances|].
    intros r2 _. destruct (done r2);
      [apply (advances_le 0 1); [lia | apply advances_refl]
      | apply chain_output_advances].
  - destruct (done r1); [exact Hstay|].
    apply (advances_trans 0 2 r r1 _ Hu).
    apply (advances_le 1 2); [lia | apply chain_output_advances].
Qed.

(** X10. On an engine whose constructor has built every node of the
    workflow, [step] cannot fail before it has written to the state:
    whenever it raises, the state of the caller holds the old messages
    followed by the new user message and at most three assistant messages,
    and every variable bound before is still bound. *)
Theorem step_error_after_user_message (fns : list executor)
    (st st' : ConversationState) (txt : string) (e : exn) :
  build_node_functions (nodes workflow) = Ok fns ->
  step workflow st txt = Raised e st' ->
  (exists extra : list Message,
      messages st' = messages st ++ mk_message "user" txt :: extra
      /\ (length extra <= 3)%nat
      /\ Forall is_assistant extra)
  /\ (forall k : string,
        is_Some (variables st !! k) -> is_Some (variables st' !! k)).
Proof.
  intros Hbuilt Hraise.
  destruct (nodes workflow) as [|first rest] eqn:Hn.
  { unfold step in Hraise. rewrite Hn in Hraise. discriminate. }
  destruct (find_next_node workflow first st) as [node|] eqn:Hpick.
  2:{ unfold step in Hraise. rewrite Hn, Hpick in Hraise. discriminate. }
  assert (Hin : In node (first :: rest)).
  { rewrite <- Hn. now apply (find_next_node_in first node rest st). }
  destruct (build_node_functions_ok _ fns Hbuilt node Hin) as (fn & Hfn).
  pose proof (step_built_advances st txt first node rest fn Hn Hpick Hfn) as Hadv.
  rewrite Hraise in Hadv. simpl in Hadv.
  destruct Hadv as [(extra & M & L & F) K]. split; [|exact K].
  exists extra. split; [|now split].
  rewrite M. simpl. now rewrite <- app_assoc.
Qed.

End ConstructedEngine.

Lemma step_error_after_user_message_witness :
  exists extra : list Message,
    messages (append_message (mk_message "user" "hello") empty_state)
    = messages empty_state ++ mk_message "user" "hello" :: extra
    /\ (length extra <= 3)%nat
    /\ Forall is_assistant extra.
Proof.
  pose (node := {| node_id := "check"; node_type := If;
                   config := {[ "condition" := VStr "last_node";
                                "true_target" := VStr "yes";
                                "false_target" := VStr "no" ]};
                   next := None |}).
  apply (proj1 (@step_error_after_user_message demo_builtins demo_jmespath
                  object_client branching_workflow
                  [@if_fn node (@evaluate_expression demo_jmespath "last_node")
                     (VStr "yes") (VStr "no")]
                  empty_state
                  (append_message (mk_message "user" "hello") empty_state)
                  "hello" ValueError eq_refl
                  ltac:(vm_compute; reflexivity))).
Defined.
